(** * Arduino upload orchestration (src/upload/arduino.js)

    A shallow embedding of the [Arduino] class: the constructor, [build],
    [_insertStr], the two touch-reset handshakes [leonardo] and
    [makeymakey], [flash] and [flashRealtimeFirmware].

    The class is written against the Node event loop.  Every call of an
    injected capability or of a Node API that has an effect is recorded as
    an [event]; what the outside world answers (capability results, the
    locale, the chunks and the exit code of a child process) is an input of
    the run.  A promise is settled by the first call of [resolve] or
    [reject] in the trace and stays pending when there is none. *)

From Stdlib Require Import ZArith String Ascii List Lia.
From stdpp Require Import base option list gmap strings pretty.
Import ListNotations.

(** ** JavaScript strings *)

Module Js.

(** [s.slice(b, e)]: negative indices count from the end, every index is
    clamped to [0, s.length], an empty range gives the empty string. *)
Definition rel_index (len i : Z) : Z :=
  if (i <? 0)%Z then Z.max (len + i) 0 else Z.min i len.

Definition slice (s : string) (b e : Z) : string :=
  let len := Z.of_nat (String.length s) in
  let from := rel_index len b in
  let to := rel_index len e in
  String.substring (Z.to_nat from) (Z.to_nat (Z.max (to - from) 0)) s.

(** [s.slice(b)] *)
Definition slice_from (s : string) (b : Z) : string :=
  slice s b (Z.of_nat (String.length s)).

(** [s.substring(0, n)] for a literal [n >= 0]. *)
Definition substring0 (n : nat) (s : string) : string :=
  String.substring 0 n s.

(** The regular expressions of the file are alternations of literals
    ([/Reading \||Writing \|/g] and the like); one is kept as the list of
    its alternatives. *)
Definition regex := list string.

Definition matches_here (re : regex) (s : string) : bool :=
  existsb (fun lit => String.prefix lit s) re.

Fixpoint search_from (re : regex) (s : string) (i : nat) : option nat :=
  if matches_here re s then Some i
  else match s with
       | EmptyString => None
       | String _ rest => search_from re rest (S i)
       end.

(** [s.search(re)]: the index of the leftmost match, [-1] when there is
    none ([search] ignores the [g] flag and [lastIndex]). *)
Definition search (s : string) (re : regex) : Z :=
  match search_from re s 0 with
  | Some i => Z.of_nat i
  | None => (-1)%Z
  end.

(** Truthiness of a value that is a string or [null]. *)
Definition truthy (v : option string) : bool :=
  match v with
  | Some s => negb (String.eqb s "")
  | None => false
  end.

(** A template literal [`...${v}`] prints [null] as the word. *)
Definition interpolate (v : option string) : string :=
  match v with
  | Some s => s
  | None => "null"
  end.

Definition crlf : string :=
  String (ascii_of_nat 13) (String (ascii_of_nat 10) EmptyString).

(** [arr.splice(start, 0, ...items)] for [start >= 0]. *)
Definition splice_insert {A} (start : nat) (items l : list A) : list A :=
  take start l ++ items ++ drop start l.

End Js.

(** ** What the file requires from outside

    [path], [ansi-string], [iconv-lite] and the two tables
    [../lib/usb-id] and [../lib/firmware] are not part of the file; the
    embedding takes them as a [Host]. *)

Record Host := {
  path_join : string -> string -> string;
  ansi_red : string;
  ansi_green_dark : string;
  ansi_clear : string;
  iconv_encode : string -> string -> string;
  usbId : gmap string string;
  firmware : gmap string string
}.

(** ** Data *)

Inductive jsError :=
| Error (message : string)
| SystemError (code : string).

Record BoardConfig := {
  fqbn : string;
  partno : string;
  programmerId : string;
  baudrate : Z
}.

(** [peripheralParams.peripheralConfig.config.baudRate] is the only part of
    the parameter object the class touches; [params_rest] stands for the
    rest of it. *)
Record PeripheralParams := {
  baudRate : Z;
  params_rest : string
}.

Record Peripheral := {
  path : string;
  pnpId : string
}.

Record Arduino := {
  _peripheralPath : string;
  _config : BoardConfig;
  _userDataPath : string;
  _tempfilePath : string;
  _arduinoPath : string;
  _peripheralParams : PeripheralParams;
  _leonardoPath : option string;
  _makeymakeyPath : option string;
  _arduinoBuilderPath : string;
  _avrdudePath : string;
  _avrdudeConfigPath : string;
  _codefilePath : string;
  _projectPath : string;
  _hexPath : string
}.

Definition set_leonardoPath (a : Arduino) (p : option string) : Arduino :=
  {| _peripheralPath := _peripheralPath a; _config := _config a;
     _userDataPath := _userDataPath a; _tempfilePath := _tempfilePath a;
     _arduinoPath := _arduinoPath a; _peripheralParams := _peripheralParams a;
     _leonardoPath := p; _makeymakeyPath := _makeymakeyPath a;
     _arduinoBuilderPath := _arduinoBuilderPath a;
     _avrdudePath := _avrdudePath a;
     _avrdudeConfigPath := _avrdudeConfigPath a;
     _codefilePath := _codefilePath a; _projectPath := _projectPath a;
     _hexPath := _hexPath a |}.

Definition set_makeymakeyPath (a : Arduino) (p : option string) : Arduino :=
  {| _peripheralPath := _peripheralPath a; _config := _config a;
     _userDataPath := _userDataPath a; _tempfilePath := _tempfilePath a;
     _arduinoPath := _arduinoPath a; _peripheralParams := _peripheralParams a;
     _leonardoPath := _leonardoPath a; _makeymakeyPath := p;
     _arduinoBuilderPath := _arduinoBuilderPath a;
     _avrdudePath := _avrdudePath a;
     _avrdudeConfigPath := _avrdudeConfigPath a;
     _codefilePath := _codefilePath a; _projectPath := _projectPath a;
     _hexPath := _hexPath a |}.

Definition set_baudRate (a : Arduino) (b : Z) : Arduino :=
  {| _peripheralPath := _peripheralPath a; _config := _config a;
     _userDataPath := _userDataPath a; _tempfilePath := _tempfilePath a;
     _arduinoPath := _arduinoPath a;
     _peripheralParams :=
       {| baudRate := b; params_rest := params_rest (_peripheralParams a) |};
     _leonardoPath := _leonardoPath a; _makeymakeyPath := _makeymakeyPath a;
     _arduinoBuilderPath := _arduinoBuilderPath a;
     _avrdudePath := _avrdudePath a;
     _avrdudeConfigPath := _avrdudeConfigPath a;
     _codefilePath := _codefilePath a; _projectPath := _projectPath a;
     _hexPath := _hexPath a |}.

(** ** Events and promises *)

Inductive event :=
| Connect (params : PeripheralParams) (exclusive : bool)
| Disconnect
| ListPeripherals
| Wait (ms : Z)
| Mkdir (dir : string)
| OsLocale
| WriteFile (file : string) (data : string)
| Spawn (command : string) (args : list string)
| Sendstd (text : string)
| Resolve (value : string)
| Reject (err : jsError).

Inductive outcome :=
| Pending
| Resolved (value : string)
| Rejected (err : jsError).

(** The state of a promise after the calls in a trace: the first call of
    [resolve] or [reject] settles it, later ones are ignored. *)
Fixpoint settled (tr : list event) : outcome :=
  match tr with
  | [] => Pending
  | Resolve v :: _ => Resolved v
  | Reject e :: _ => Rejected e
  | _ :: rest => settled rest
  end.

(** ** constructor *)

Definition constructor (h : Host) (peripheralPath : string)
    (config : BoardConfig) (userDataPath toolsPath : string)
    (peripheralParams : PeripheralParams) : Arduino :=
  let tempfilePath := path_join h userDataPath "arduino/project" in
  let arduinoPath := path_join h toolsPath "Arduino" in
  let projectPath := path_join h tempfilePath "build" in
  {| _peripheralPath := peripheralPath;
     _config := config;
     _userDataPath := userDataPath;
     _tempfilePath := tempfilePath;
     _arduinoPath := arduinoPath;
     _peripheralParams := peripheralParams;
     _leonardoPath := None;
     _makeymakeyPath := None;
     _arduinoBuilderPath := path_join h arduinoPath "arduino-builder";
     _avrdudePath := path_join h arduinoPath "hardware/tools/avr/bin/avrdude";
     _avrdudeConfigPath :=
       path_join h arduinoPath "hardware/tools/avr/etc/avrdude.conf";
     _codefilePath := path_join h tempfilePath "arduino.ino";
     _projectPath := projectPath;
     _hexPath := path_join h projectPath "arduino.ino.hex" |}.

(** ** build *)

(** What the file system answers during the synchronous part of [build]:
    the three [fs.existsSync] calls and the two [fs.mkdirSync] calls
    ([None]: the call returns, [Some e]: it throws [e]). *)
Record BuildFs := {
  projectPath_exists : bool;
  mkdir_projectPath : option jsError;
  cache_exists : bool;
  mkdir_cache : option jsError;
  extensionsLibraries_exists : bool
}.

(** What a child process sends back. *)
Inductive procInput :=
| StderrData (buf : string)
| StdoutData (buf : string)
| Exit (code : Z).

(** What reaches [build] after its synchronous part has returned: the
    [osLocale()] promise is fulfilled (the callback then calls
    [fs.writeFileSync], which returns or throws), or arduino-builder sends
    something. *)
Inductive buildInput :=
| LocaleResolved (locale : string) (writeFileSync : option jsError)
| FromBuilder (i : procInput).

Definition build_base_args (h : Host) (a : Arduino) : list string :=
  [ "-compile";
    "-logger=human";
    "-hardware"; path_join h (_arduinoPath a) "hardware";
    "-tools"; path_join h (_arduinoPath a) "tools-builder";
    "-tools"; path_join h (_arduinoPath a) "hardware/tools/avr";
    "-libraries"; path_join h (_arduinoPath a) "libraries";
    "-fqbn"; fqbn (_config a);
    "-build-path"; path_join h (_tempfilePath a) "build";
    "-build-cache"; path_join h (_tempfilePath a) "cache";
    "-warnings=none";
    "-verbose";
    _codefilePath a ].

Definition extensionsLibraries (h : Host) (a : Arduino) : string :=
  path_join h (_userDataPath a) "../extensions/libraries/Arduino".

Definition build_args (h : Host) (a : Arduino) (exists_ext : bool)
    : list string :=
  let args := build_base_args h a in
  if exists_ext
  then Js.splice_insert 6 ["-libraries"; extensionsLibraries h a] args
  else args.

(** The callback of [osLocale().then]. *)
Definition build_on_locale (h : Host) (a : Arduino) (code locale : string)
    (writeFileSync : option jsError) : list event :=
  let code :=
    if String.eqb locale "zh-CN" then iconv_encode h code "gb2312" else code in
  WriteFile (_codefilePath a) code ::
  match writeFileSync with
  | Some err => [Reject err]
  | None => []
  end.

Definition build_on_stderr (h : Host) (buf : string) : list event :=
  [Sendstd (ansi_red h +:+ buf)].

Definition build_on_stdout (h : Host) (buf : string) : list event :=
  let data := buf in
  let ansiColor :=
    if (Js.search data ["Sketch uses"; "Global variables"] =? -1)%Z
    then ansi_clear h
    else ansi_green_dark h in
  [Sendstd (ansiColor +:+ data)].

Definition build_on_exit (h : Host) (outCode : Z) : list event :=
  Sendstd (ansi_clear h +:+ Js.crlf) ::
  match outCode with
  | 0%Z => [Resolve "Success"]
  | 1%Z => [Reject (Error "Build failed")]
  | 2%Z => [Reject (Error "Sketch not found")]
  | 3%Z => [Reject (Error "Invalid (argument for) commandline optiond")]
  | 4%Z => [Reject (Error "Preference passed to --get-pref does not exist")]
  | _ => []
  end.

Definition build_handler (h : Host) (a : Arduino) (code : string)
    (i : buildInput) : list event :=
  match i with
  | LocaleResolved locale w => build_on_locale h a code locale w
  | FromBuilder (StderrData buf) => build_on_stderr h buf
  | FromBuilder (StdoutData buf) => build_on_stdout h buf
  | FromBuilder (Exit outCode) => build_on_exit h outCode
  end.

(** The body of the promise executor, which runs to its end before any
    callback does.  An exception of [mkdirSync] leaves the executor and
    rejects the promise. *)
Definition build_sync (h : Host) (a : Arduino) (fs : BuildFs) : list event :=
  let mk (present : bool) (dir : string) (r : option jsError)
         (k : list event) : list event :=
    if present then k
    else Mkdir dir :: match r with
                      | Some err => [Reject err]
                      | None => k
                      end in
  mk (projectPath_exists fs) (_projectPath a) (mkdir_projectPath fs)
    (mk (cache_exists fs) (path_join h (_tempfilePath a) "cache")
        (mkdir_cache fs)
        [ OsLocale;
          Spawn (_arduinoBuilderPath a)
                (build_args h a (extensionsLibraries_exists fs)) ]).

Definition build_started (fs : BuildFs) : bool :=
  (projectPath_exists fs || bool_decide (mkdir_projectPath fs = None))
  && (cache_exists fs || bool_decide (mkdir_cache fs = None)).

(** A whole run of [build(code)]: the executor, then one callback per
    input, in the order of arrival.  No callback is registered when the
    executor was left by an exception. *)
Definition build (h : Host) (a : Arduino) (fs : BuildFs) (code : string)
    (inputs : list buildInput) : list event :=
  build_sync h a fs ++
  (if build_started fs then flat_map (build_handler h a code) inputs else []).

(** ** _insertStr *)

Definition _insertStr (soure : string) (start : Z) (newStr : string)
    : string :=
  Js.slice soure 0 start +:+ newStr +:+ Js.slice_from soure start.

(** ** leonardo and makeymakey *)

Inductive ListResult :=
| ListResolves (peripheral : option (list Peripheral))
| ListRejects (err : jsError).

(** The answers of the injected capabilities during one handshake. *)
Record TouchEnv := {
  connect_result : option jsError;
  disconnect_result : option jsError;
  list_result : ListResult
}.

(** How an awaited [async] call ends. *)
Inductive awaited :=
| Fulfilled
| Thrown (err : jsError)
| NeverSettles.

Definition device_name (h : Host) (device : Peripheral) : string :=
  let pnpid := Js.substring0 21 (pnpId device) in
  if Js.truthy (usbId h !! pnpid)
  then Js.interpolate (usbId h !! pnpid)
  else "Unknown device".

(** The [peripheral.forEach] loop of [leonardo]. *)
Definition leonardo_scan (h : Host) (a : Arduino)
    (peripheral : list Peripheral) : Arduino :=
  foldl (fun a device =>
           if String.eqb (device_name h device) "Arduino Leonardo"
           then set_leonardoPath a (Some (path device))
           else a)
        a peripheral.

Definition makeymakey_scan (h : Host) (a : Arduino)
    (peripheral : list Peripheral) : Arduino :=
  foldl (fun a device =>
           if String.eqb (device_name h device) "Makey Makey"
           then set_makeymakeyPath a (Some (path device))
           else a)
        a peripheral.

(** The two methods differ in the loop, the field they test and the
    message; [touch_reset] is their common text. *)
Definition touch_reset (scan : Arduino -> list Peripheral -> Arduino)
    (field : Arduino -> option string) (message : string)
    (a : Arduino) (env : TouchEnv) : list event * Arduino * awaited :=
  let a := set_baudRate a 1200 in
  let peripheralParams := _peripheralParams a in
  match connect_result env with
  | Some err => ([Connect peripheralParams true], a, Thrown err)
  | None =>
    match disconnect_result env with
    | Some err =>
        ([Connect peripheralParams true; Wait 100; Disconnect], a, Thrown err)
    | None =>
      let tr := [Connect peripheralParams true; Wait 100; Disconnect;
                 Wait 1000; ListPeripherals] in
      match list_result env with
      | ListRejects _ => (tr, a, NeverSettles)
      | ListResolves None => (tr, a, Thrown (Error message))
      | ListResolves (Some peripheral) =>
          let a := scan a peripheral in
          match field a with
          | None => (tr, a, Thrown (Error message))
          | Some _ => (tr, a, Fulfilled)
          end
      end
    end
  end.

Definition leonardo (h : Host) : Arduino -> TouchEnv ->
    list event * Arduino * awaited :=
  touch_reset (leonardo_scan h) _leonardoPath "cannot discover leonardo".

Definition makeymakey (h : Host) : Arduino -> TouchEnv ->
    list event * Arduino * awaited :=
  touch_reset (makeymakey_scan h) _makeymakeyPath "cannot discover makeymakey".

(** ** flash *)

Definition AVRDUDE_STDOUT_GREEN_START : Js.regex := ["Reading |"; "Writing |"].
Definition AVRDUDE_STDOUT_GREEN_END : Js.regex := ["%"].
Definition AVRDUDE_STDOUT_WHITE : Js.regex := ["avrdude done"].
Definition AVRDUDE_STDOUT_RED_START : Js.regex :=
  ["can't open device"; "programmer is not responding"].

(** One [if (data.search(re) != -1) data = this._insertStr(...)] of the
    stderr callback; [shift] is the [+ 1] of the percent sign. *)
Definition tag (re : Js.regex) (shift : Z) (marker : string) (data : string)
    : string :=
  if negb (Js.search data re =? -1)%Z
  then _insertStr data (Js.search data re + shift)%Z marker
  else data.

Definition flash_stderr (h : Host) (buf : string) : string :=
  let data := buf in
  let data := tag AVRDUDE_STDOUT_GREEN_START 0 (ansi_green_dark h) data in
  let data := tag AVRDUDE_STDOUT_GREEN_END 1 (ansi_clear h) data in
  let data := tag AVRDUDE_STDOUT_WHITE 0 (ansi_clear h) data in
  let data := tag AVRDUDE_STDOUT_RED_START 0 (ansi_red h) data in
  data.

Definition port_argument (a : Arduino) : string :=
  if Js.truthy (_leonardoPath a)
  then "-P" +:+ Js.interpolate (_leonardoPath a)
  else if Js.truthy (_makeymakeyPath a)
       then "-P" +:+ Js.interpolate (_makeymakeyPath a)
       else "-P" +:+ _peripheralPath a.

Definition flash_args (a : Arduino) (firmwarePath : option string)
    : list string :=
  [ "-C";
    _avrdudeConfigPath a;
    "-v";
    "-p" +:+ partno (_config a);
    "-c" +:+ programmerId (_config a);
    port_argument a;
    "-b" +:+ pretty (baudrate (_config a));
    "-D";
    if Js.truthy firmwarePath
    then "-Uflash:w:" +:+ Js.interpolate firmwarePath +:+ ":i"
    else "-Uflash:w:" +:+ _hexPath a +:+ ":i" ].

Definition flash_on_exit (a : Arduino) (code : Z) : list event :=
  match code with
  | 0%Z =>
      if String.eqb (fqbn (_config a)) "arduino:avr:leonardo"
      then [Wait 1000; Resolve "Success"]
      else if String.eqb (fqbn (_config a)) "SparkFun:avr:makeymakey"
           then [Wait 1000; Resolve "Success"]
           else [Resolve "Success"]
  | 1%Z => [Reject (Error "avrdude failed to flash")]
  | _ => []
  end.

Definition flash_handler (h : Host) (a : Arduino) (i : procInput)
    : list event :=
  match i with
  | StderrData buf => [Sendstd (flash_stderr h buf)]
  | StdoutData buf => [Sendstd buf]
  | Exit code => flash_on_exit a code
  end.

(** The inputs of one [flash]: the capability answers of the handshake
    (read only by a touch-reset board) and what avrdude sends back. *)
Record FlashEnv := {
  touch : TouchEnv;
  avrdude : list procInput
}.

(** The handshake that opens [flash]. *)
Definition flash_handshake (h : Host) (a : Arduino) (env : TouchEnv)
    : list event * Arduino * awaited :=
  if String.eqb (fqbn (_config a)) "arduino:avr:leonardo"
  then leonardo h a env
  else if String.eqb (fqbn (_config a)) "SparkFun:avr:makeymakey"
       then makeymakey h a env
       else ([], a, Fulfilled).

(** A whole run of [flash(firmwarePath)]: the trace and the instance it
    leaves.  An exception of an awaited handshake rejects the promise of
    the [async] method; a handshake that never settles leaves it pending
    with nothing spawned. *)
Definition flash (h : Host) (a : Arduino) (env : FlashEnv)
    (firmwarePath : option string) : list event * Arduino :=
  let '(tr, a, r) := flash_handshake h a (touch env) in
  match r with
  | Thrown err => (tr ++ [Reject err], a)
  | NeverSettles => (tr, a)
  | Fulfilled =>
      (tr ++ Spawn (_avrdudePath a) (flash_args a firmwarePath)
          :: flat_map (flash_handler h a) (avrdude env), a)
  end.

(** [flashRealtimeFirmware()]; [None] when [path.join] throws on a board
    that the firmware table does not list. *)
Definition flashRealtimeFirmware (h : Host) (a : Arduino) (env : FlashEnv)
    : option (list event * Arduino) :=
  match firmware h !! fqbn (_config a) with
  | Some file =>
      let firmwarePath :=
        path_join h (path_join h (_arduinoPath a) "../RealtimeFirmware/arduino")
                  file in
      Some (flash h a env (Some firmwarePath))
  | None => None
  end.

(** ** Use of an instance *)

(** The calls a client makes on an instance, each with the inputs of its
    run. *)
Inductive call :=
| CallBuild (fs : BuildFs) (code : string) (inputs : list buildInput)
| CallFlash (env : FlashEnv) (firmwarePath : option string)
| CallFlashRealtimeFirmware (env : FlashEnv).

Definition after (h : Host) (a : Arduino) (c : call) : Arduino :=
  match c with
  | CallBuild _ _ _ => a
  | CallFlash env firmwarePath => snd (flash h a env firmwarePath)
  | CallFlashRealtimeFirmware env =>
      match flashRealtimeFirmware h a env with
      | Some r => snd r
      | None => a
      end
  end.

(** The instance after a series of calls. *)
Definition after_calls (h : Host) (a : Arduino) (cs : list call) : Arduino :=
  foldl (after h) a cs.

(** The events of the bootloader handshake. *)
Definition is_handshake_event (e : event) : bool :=
  match e with
  | Connect _ _ | Disconnect | ListPeripherals => true
  | _ => false
  end.

Definition touch_reset_board (a : Arduino) : bool :=
  String.eqb (fqbn (_config a)) "arduino:avr:leonardo"
  || String.eqb (fqbn (_config a)) "SparkFun:avr:makeymakey".

(** ** A host and instances to run the code on

    The two tables of [sample_host] hold a few entries of the shape the
    class expects (a 21-character PnP prefix, an fqbn); the theorems that
    are stated for every [Host] do not depend on them. *)

Definition sample_host : Host :=
  {| path_join := fun a b => a +:+ "/" +:+ b;
     ansi_red := String (ascii_of_nat 27) "[31m";
     ansi_green_dark := String (ascii_of_nat 27) "[32m";
     ansi_clear := String (ascii_of_nat 27) "[0m";
     iconv_encode := fun s _ => s;
     usbId := <["USB\VID_2341&PID_0036" := "Arduino Leonardo"]>
              (<["USB\VID_1B4F&PID_2B74" := "Makey Makey"]> ∅);
     firmware := <["arduino:avr:uno" := "uno.hex"]> ∅ |}.

Definition sample_params : PeripheralParams :=
  {| baudRate := 115200; params_rest := "" |}.

Definition leonardo_config : BoardConfig :=
  {| fqbn := "arduino:avr:leonardo"; partno := "atmega32u4";
     programmerId := "avr109"; baudrate := 57600 |}.

Definition uno_config : BoardConfig :=
  {| fqbn := "arduino:avr:uno"; partno := "atmega328p";
     programmerId := "arduino"; baudrate := 115200 |}.

Definition sample_leonardo : Arduino :=
  constructor sample_host "COM3" leonardo_config "/data" "/tools" sample_params.

Definition sample_uno : Arduino :=
  constructor sample_host "COM3" uno_config "/data" "/tools" sample_params.

Definition leonardo_device (p : string) : Peripheral :=
  {| path := p; pnpId := "USB\VID_2341&PID_0036\5&3A1B2C3D&0&2" |}.

Definition other_device (p : string) : Peripheral :=
  {| path := p; pnpId := "USB\VID_1A86&PID_7523\5&1F2E3D4C&0&1" |}.

Definition touch_ok (l : option (list Peripheral)) : TouchEnv :=
  {| connect_result := None; disconnect_result := None;
     list_result := ListResolves l |}.

Definition fs_ready (ext : bool) : BuildFs :=
  {| projectPath_exists := true; mkdir_projectPath := None;
     cache_exists := true; mkdir_cache := None;
     extensionsLibraries_exists := ext |}.

(** ** Vocabulary of the statements *)

Definition is_write (e : event) : bool :=
  match e with
  | WriteFile _ _ => true
  | _ => false
  end.

Definition is_spawn (e : event) : bool :=
  match e with
  | Spawn _ _ => true
  | _ => false
  end.

(** The capability calls and timers of one complete handshake on [a]. *)
Definition handshake_sequence (a : Arduino) : list event :=
  [ Connect {| baudRate := 1200;
               params_rest := params_rest (_peripheralParams a) |} true;
    Wait 100; Disconnect; Wait 1000; ListPeripherals ].

(** The entries of a peripheral list that the device directory names
    [target]. *)
Definition resolving (h : Host) (target : string) (l : list Peripheral)
    : list Peripheral :=
  filter (fun device => device_name h device = target) l.

(** [re] matches nowhere in [d]. *)
Definition no_match (re : Js.regex) (d : string) : Prop :=
  forall pre post, d = pre +:+ post -> Js.matches_here re post = false.

(** [d] is [pre], then the alternative [lit] of [re], then [rest], and [re]
    matches at no position to the left of [lit]. *)
Definition leftmost_match (re : Js.regex) (d pre lit rest : string) : Prop :=
  d = pre +:+ lit +:+ rest /\ In lit re /\
  forall pre' post', d = pre' +:+ post' ->
    String.length pre' < String.length pre ->
    Js.matches_here re post' = false.

(** [d'] is [d] with [marker] put in front of the leftmost match of [re];
    it is [d] when there is no match. *)
Definition marked_before (re : Js.regex) (marker d d' : string) : Prop :=
  (no_match re d /\ d' = d) \/
  exists pre lit rest,
    leftmost_match re d pre lit rest /\ d' = pre +:+ marker +:+ lit +:+ rest.

(** The same with [marker] put right behind the match. *)
Definition marked_after (re : Js.regex) (marker d d' : string) : Prop :=
  (no_match re d /\ d' = d) \/
  exists pre lit rest,
    leftmost_match re d pre lit rest /\ d' = pre +:+ lit +:+ marker +:+ rest.

(** [out] is [s] with some of the [markers] put in, and nothing else
    changed. *)
Inductive only_inserted (markers : list string) (s : string)
    : string -> Prop :=
| only_inserted_none : only_inserted markers s s
| only_inserted_more pre post marker :
    only_inserted markers s (pre +:+ post) ->
    In marker markers ->
    only_inserted markers s (pre +:+ marker +:+ post).

Definition chars (s : string) : list ascii := list_ascii_of_string s.

(** The port argument as the specification words the precedence: a cached
    path is taken when it is not [null]. *)
Definition port_argument_by_null (a : Arduino) : string :=
  match _leonardoPath a with
  | Some p => "-P" +:+ p
  | None =>
      match _makeymakeyPath a with
      | Some q => "-P" +:+ q
      | None => "-P" +:+ _peripheralPath a
      end
  end.

(** The build arguments as the specification words them: the extensions
    pair directly behind the base [-libraries] pair. *)
Definition build_args_after_base (h : Host) (a : Arduino) : list string :=
  [ "-compile";
    "-logger=human";
    "-hardware"; path_join h (_arduinoPath a) "hardware";
    "-tools"; path_join h (_arduinoPath a) "tools-builder";
    "-tools"; path_join h (_arduinoPath a) "hardware/tools/avr";
    "-libraries"; path_join h (_arduinoPath a) "libraries";
    "-libraries"; extensionsLibraries h a;
    "-fqbn"; fqbn (_config a);
    "-build-path"; path_join h (_tempfilePath a) "build";
    "-build-cache"; path_join h (_tempfilePath a) "cache";
    "-warnings=none";
    "-verbose";
    _codefilePath a ].

(** What no method changes after the constructor. *)
Definition same_setup (a a' : Arduino) : Prop :=
  _peripheralPath a' = _peripheralPath a /\
  _config a' = _config a /\
  _avrdudePath a' = _avrdudePath a /\
  params_rest (_peripheralParams a') = params_rest (_peripheralParams a).

Definition is_settling (e : event) : bool :=
  match e with
  | Resolve _ | Reject _ => true
  | _ => false
  end.

(** The ResolvedTarget of a run: the port argument, sixth in the list,
    of the programmer that the run spawns. *)
Definition resolved_target (tr : list event) : option string :=
  match List.filter is_spawn tr with
  | Spawn _ args :: _ => args !! 5
  | _ => None
  end.

(** The data chunks among what a process sends. *)
Definition chunks_only (l : list procInput) : list procInput :=
  List.filter (fun i => match i with Exit _ => false | _ => true end) l.

(** ** Vocabulary of the further statements *)

(** [data] has [phrase] somewhere in it. *)
Definition contains (phrase data : string) : Prop :=
  exists pre post, data = pre +:+ phrase +:+ post.

(** Every literal the stderr callback of [flash] looks for. *)
Definition avrdude_patterns : Js.regex :=
  AVRDUDE_STDOUT_GREEN_START ++ AVRDUDE_STDOUT_GREEN_END
  ++ AVRDUDE_STDOUT_WHITE ++ AVRDUDE_STDOUT_RED_START.

(** The texts a run hands to [sendstd], in order. *)
Definition sent (tr : list event) : list string :=
  omap (fun e => match e with Sendstd text => Some text | _ => None end) tr.

(** The flash-memory directive, ninth in the list, of the programmer that
    a run spawns. *)
Definition firmware_argument (tr : list event) : option string :=
  match List.filter is_spawn tr with
  | Spawn _ args :: _ => args !! 8
  | _ => None
  end.

(** What the constructor computes and no method assigns. *)
Definition same_layout (a a' : Arduino) : Prop :=
  _peripheralPath a' = _peripheralPath a /\
  _config a' = _config a /\
  _userDataPath a' = _userDataPath a /\
  _tempfilePath a' = _tempfilePath a /\
  _arduinoPath a' = _arduinoPath a /\
  _arduinoBuilderPath a' = _arduinoBuilderPath a /\
  _avrdudePath a' = _avrdudePath a /\
  _avrdudeConfigPath a' = _avrdudeConfigPath a /\
  _codefilePath a' = _codefilePath a /\
  _projectPath a' = _projectPath a /\
  _hexPath a' = _hexPath a.

Definition makeymakey_config : BoardConfig :=
  {| fqbn := "SparkFun:avr:makeymakey"; partno := "atmega32u4";
     programmerId := "avr109"; baudrate := 57600 |}.

Definition sample_makeymakey : Arduino :=
  constructor sample_host "COM4" makeymakey_config "/data" "/tools"
              sample_params.

Definition makeymakey_device (p : string) : Peripheral :=
  {| path := p; pnpId := "USB\VID_1B4F&PID_2B74\6&2D3E4F5A&0&3" |}.

(** None of the literals [lits] occurs in [d]. *)
Definition absent (lits : list string) (d : string) : Prop :=
  forall lit, In lit lits -> ~ contains lit d.

(** [d] reads [pre], then [lit], one of [lits], then [rest], and no
    occurrence of a literal of [lits] in [d] starts further to the left. *)
Definition leftmost_of (lits : list string) (d pre lit rest : string)
    : Prop :=
  d = pre +:+ lit +:+ rest /\ In lit lits /\
  forall lit' pre' rest',
    In lit' lits -> d = pre' +:+ lit' +:+ rest' ->
    String.length pre <= String.length pre'.

(** [d'] is [d] with [marker] put once, in front of the leftmost
    occurrence of a literal of [lits]; it is [d] when none occurs. *)
Definition put_before (lits : list string) (marker d d' : string) : Prop :=
  (absent lits d /\ d' = d) \/
  exists pre lit rest,
    leftmost_of lits d pre lit rest /\ d' = pre +:+ marker +:+ lit +:+ rest.

(** The same with [marker] put once, right behind that occurrence. *)
Definition put_behind (lits : list string) (marker d d' : string) : Prop :=
  (absent lits d /\ d' = d) \/
  exists pre lit rest,
    leftmost_of lits d pre lit rest /\ d' = pre +:+ lit +:+ marker +:+ rest.

(** The tagging of a chunk as the claim words it, a marker at every match:
    the green marker in front of every ['Reading |'] and ['Writing |'],
    the clear marker in front of every ['avrdude done'], the red marker
    in front of every error phrase, the clear marker right behind every
    percent sign. *)
Fixpoint tagged_at_every_match (h : Host) (s : string) : string :=
  let front :=
    (if String.prefix "Reading |" s || String.prefix "Writing |" s
     then ansi_green_dark h else "")
    +:+ (if String.prefix "avrdude done" s then ansi_clear h else "")
    +:+ (if String.prefix "can't open device" s
            || String.prefix "programmer is not responding" s
         then ansi_red h else "") in
  match s with
  | EmptyString => front
  | String c rest =>
      front
      +:+ String c ((if Ascii.eqb c "%" then ansi_clear h else "")
                    +:+ tagged_at_every_match h rest)
  end.

(** * Properties *)

(** ** Strings *)

Section Strings.

Lemma append_nil (t : string) : "" +:+ t = t.
Proof. reflexivity. Qed.

Lemma append_cons (c : ascii) (s t : string) :
  String c s +:+ t = String c (s +:+ t).
Proof. reflexivity. Qed.

Lemma append_assoc (s t u : string) : (s +:+ t) +:+ u = s +:+ t +:+ u.
Proof.
  induction s as [|c s IH]; [reflexivity|].
  rewrite !append_cons. f_equal. exact IH.
Qed.


Lemma length_append (s t : string) :
  String.length (s +:+ t) = String.length s + String.length t.
Proof.
  induction s as [|c s IH]; [reflexivity|].
  rewrite append_cons. simpl. f_equal. exact IH.
Qed.

Lemma chars_append (s t : string) : chars (s +:+ t) = chars s ++ chars t.
Proof.
  induction s as [|c s IH]; [reflexivity|].
  rewrite append_cons. unfold chars in *. simpl. f_equal. exact IH.
Qed.

Lemma substring_all (s : string) :
  String.substring 0 (String.length s) s = s.
Proof.
  induction s as [|c s IH]; [reflexivity|]. simpl. f_equal. exact IH.
Qed.

Lemma substring_head (pre post : string) :
  String.substring 0 (String.length pre) (pre +:+ post) = pre.
Proof.
  induction pre as [|c pre IH].
  - rewrite append_nil. now destruct post.
  - rewrite append_cons. simpl. f_equal. exact IH.
Qed.

Lemma substring_tail (pre post : string) :
  String.substring (String.length pre) (String.length post) (pre +:+ post)
  = post.
Proof.
  induction pre as [|c pre IH].
  - rewrite append_nil. apply substring_all.
  - rewrite append_cons. simpl. exact IH.
Qed.

(** Cutting a string at any place loses nothing. *)
Lemma substring_cut (n : nat) (s : string) :
  n <= String.length s ->
  String.substring 0 n s +:+ String.substring n (String.length s - n) s = s.
Proof.
  revert n; induction s as [|c s IH]; intros [|n] Hn; simpl in *;
    try reflexivity; try lia.
  - rewrite append_nil. f_equal. apply substring_all.
  - rewrite append_cons. f_equal. apply IH. lia.
Qed.

Lemma prefix_split (lit s : string) :
  String.prefix lit s = true -> exists rest, s = lit +:+ rest.
Proof.
  revert s; induction lit as [|c lit IH]; intros s H.
  - exists s. reflexivity.
  - destruct s as [|d s]; simpl in H; [discriminate|].
    destruct (ascii_dec c d) as [->|]; [|discriminate].
    destruct (IH _ H) as [rest ->]. now exists rest.
Qed.

Lemma prefix_append (lit rest : string) :
  String.prefix lit (lit +:+ rest) = true.
Proof.
  induction lit as [|c lit IH].
  - rewrite append_nil. now destruct rest.
  - rewrite append_cons. simpl.
    destruct (ascii_dec c c); [exact IH | congruence].
Qed.

Lemma matches_here_split (re : Js.regex) (s : string) :
  Js.matches_here re s = true ->
  exists lit rest, In lit re /\ s = lit +:+ rest.
Proof.
  unfold Js.matches_here. rewrite existsb_exists.
  intros (lit & Hin & Hp). destruct (prefix_split _ _ Hp) as [rest ->].
  now exists lit, rest.
Qed.

End Strings.

(** ** [search] and [_insertStr] *)

Section Search.

Variable re : Js.regex.

Lemma search_from_None (s : string) (i : nat) :
  Js.search_from re s i = None -> no_match re s.
Proof.
  revert i; induction s as [|c s IH]; intros i H pre post E.
  - destruct pre; [|discriminate]. rewrite append_nil in E. subst post.
    simpl in H. now destruct (Js.matches_here re "").
  - simpl in H. destruct (Js.matches_here re (String c s)) eqn:M;
      [discriminate|].
    destruct pre as [|c' pre].
    + rewrite append_nil in E. now subst post.
    + rewrite append_cons in E. injection E as _ E.
      exact (IH _ H _ _ E).
Qed.

Lemma search_from_Some (s : string) (i k : nat) :
  Js.search_from re s i = Some k ->
  exists pre post,
    s = pre +:+ post /\ k = i + String.length pre /\
    Js.matches_here re post = true /\
    forall pre' post', s = pre' +:+ post' ->
      String.length pre' < String.length pre ->
      Js.matches_here re post' = false.
Proof.
  revert i; induction s as [|c s IH]; intros i H.
  - simpl in H. destruct (Js.matches_here re "") eqn:M; [|discriminate].
    exists "", "". repeat split; auto.
    + injection H as <-. simpl. lia.
    + simpl. intros. lia.
  - simpl in H. destruct (Js.matches_here re (String c s)) eqn:M.
    + exists "", (String c s). repeat split; auto.
      * injection H as <-. simpl. lia.
      * simpl. intros. lia.
    + destruct (IH _ H) as (pre & post & -> & -> & Hm & Hleft).
      exists (String c pre), post.
      split; [reflexivity|]. split; [simpl; lia|]. split; [exact Hm|].
      intros [|c' pre'] post' E Hlen.
      * rewrite append_nil in E. now subst post'.
      * rewrite !append_cons in E. injection E as _ E.
        apply (Hleft _ _ E). simpl in Hlen. lia.
Qed.

Lemma search_miss (d : string) :
  Js.search d re = (-1)%Z -> no_match re d.
Proof.
  unfold Js.search. destruct (Js.search_from re d 0) eqn:E; [lia|].
  intros _. exact (search_from_None _ _ E).
Qed.

Lemma search_hit (d : string) :
  Js.search d re <> (-1)%Z ->
  exists pre lit rest,
    leftmost_match re d pre lit rest /\
    Js.search d re = Z.of_nat (String.length pre).
Proof.
  unfold Js.search. destruct (Js.search_from re d 0) eqn:E; [|congruence].
  intros _. destruct (search_from_Some _ _ _ E)
    as (pre & post & -> & -> & Hm & Hleft).
  destruct (matches_here_split _ _ Hm) as (lit & rest & Hin & ->).
  exists pre, lit, rest. repeat split; auto.
Qed.

End Search.

Section InsertStr.

Lemma rel_index_inside (len n : nat) :
  n <= len -> Js.rel_index (Z.of_nat len) (Z.of_nat n) = Z.of_nat n.
Proof.
  intros H. unfold Js.rel_index.
  destruct (Z.ltb_spec (Z.of_nat n) 0); lia.
Qed.

Lemma rel_index_zero (len : nat) : Js.rel_index (Z.of_nat len) 0 = 0%Z.
Proof. apply (rel_index_inside len 0). lia. Qed.

Lemma rel_index_range (len : nat) (i : Z) :
  (0 <= Js.rel_index (Z.of_nat len) i <= Z.of_nat len)%Z.
Proof. unfold Js.rel_index. destruct (Z.ltb_spec i 0); lia. Qed.

(** [_insertStr] cuts the string once and puts [newStr] in the cut,
    wherever [start] lies. *)
Lemma _insertStr_cut (soure : string) (start : Z) (newStr : string) :
  exists pre post,
    soure = pre +:+ post /\
    _insertStr soure start newStr = pre +:+ newStr +:+ post.
Proof.
  set (len := String.length soure).
  set (n := Z.to_nat (Js.rel_index (Z.of_nat len) start)).
  pose proof (rel_index_range len start) as Hr.
  exists (String.substring 0 n soure),
         (String.substring n (len - n) soure).
  split.
  - symmetry. apply substring_cut. unfold n. fold len. lia.
  - unfold _insertStr, Js.slice_from, Js.slice. fold len.
    rewrite rel_index_zero.
    rewrite (rel_index_inside len len) by lia.
    replace (Z.to_nat (Z.max (Js.rel_index (Z.of_nat len) start - 0) 0))
      with n by (unfold n; lia).
    replace (Z.to_nat (Z.max (Z.of_nat len
                              - Js.rel_index (Z.of_nat len) start) 0))
      with (len - n) by (unfold n; lia).
    reflexivity.
Qed.

(** At an index inside the string the cut is at that index. *)
Lemma _insertStr_at (pre post newStr : string) :
  _insertStr (pre +:+ post) (Z.of_nat (String.length pre)) newStr
  = pre +:+ newStr +:+ post.
Proof.
  unfold _insertStr, Js.slice_from, Js.slice.
  rewrite length_append.
  rewrite rel_index_zero.
  rewrite (rel_index_inside _ (String.length pre + String.length post))
    by lia.
  rewrite (rel_index_inside _ (String.length pre)) by lia.
  replace (Z.to_nat (Z.max (Z.of_nat (String.length pre) - 0) 0))
    with (String.length pre) by lia.
  replace (Z.to_nat
             (Z.max (Z.of_nat (String.length pre + String.length post)
                     - Z.of_nat (String.length pre)) 0))
    with (String.length post) by lia.
  rewrite Nat2Z.id. simpl Z.to_nat.
  now rewrite substring_head, substring_tail.
Qed.

End InsertStr.

(** ** The stderr callback of [flash] *)

Section Tagging.

Lemma tag_before (re : Js.regex) (marker d : string) :
  marked_before re marker d (tag re 0 marker d).
Proof.
  unfold tag. destruct (Z.eqb_spec (Js.search d re) (-1)) as [E|E]; simpl.
  - left. split; [now apply search_miss | reflexivity].
  - right. destruct (search_hit re d E) as (pre & lit & rest & Hl & Hs).
    exists pre, lit, rest. split; [exact Hl|].
    rewrite Hs, Z.add_0_r. destruct Hl as (-> & _). apply _insertStr_at.
Qed.

Lemma tag_after_percent (marker d : string) :
  marked_after AVRDUDE_STDOUT_GREEN_END marker d
               (tag AVRDUDE_STDOUT_GREEN_END 1 marker d).
Proof.
  unfold tag.
  destruct (Z.eqb_spec (Js.search d AVRDUDE_STDOUT_GREEN_END) (-1))
    as [E|E]; simpl.
  - left. split; [now apply search_miss | reflexivity].
  - right. destruct (search_hit _ d E) as (pre & lit & rest & Hl & Hs).
    exists pre, lit, rest. split; [exact Hl|].
    destruct Hl as (-> & [<-|[]] & _). rewrite Hs.
    replace (Z.of_nat (String.length pre) + 1)%Z
      with (Z.of_nat (String.length (pre +:+ "%")))
      by (rewrite length_append; simpl; lia).
    rewrite <- (append_assoc pre "%" rest), _insertStr_at.
    apply append_assoc.
Qed.

Lemma tag_only_inserted (markers : list string) (re : Js.regex)
    (shift : Z) (marker s d : string) :
  In marker markers ->
  only_inserted markers s d ->
  only_inserted markers s (tag re shift marker d).
Proof.
  intros Hin Hd. unfold tag.
  destruct (negb _); [|exact Hd].
  destruct (_insertStr_cut d (Js.search d re + shift) marker)
    as (pre & post & E & ->).
  subst d. now apply only_inserted_more.
Qed.

Lemma only_inserted_sublist (markers : list string) (s out : string) :
  only_inserted markers s out -> chars s `sublist_of` chars out.
Proof.
  induction 1 as [|pre post marker _ IH _]; [reflexivity|].
  rewrite !chars_append. rewrite chars_append in IH.
  etransitivity; [exact IH|].
  apply sublist_app; [reflexivity | apply sublist_inserts_l; reflexivity].
Qed.

End Tagging.

Section Leftmost.

Variable lits : list string.

Lemma no_match_absent (d : string) : no_match lits d -> absent lits d.
Proof.
  intros Hno lit Hin (pre & post & ->).
  specialize (Hno pre (lit +:+ post) eq_refl).
  unfold Js.matches_here in Hno.
  assert (existsb (fun l => String.prefix l (lit +:+ post)) lits = true)
    by (apply existsb_exists; exists lit; split;
        [exact Hin | apply prefix_append]).
  congruence.
Qed.

Lemma leftmost_match_of (d pre lit rest : string) :
  leftmost_match lits d pre lit rest -> leftmost_of lits d pre lit rest.
Proof.
  intros (E & Hin & Hleft). split; [exact E|]. split; [exact Hin|].
  intros lit' pre' rest' Hin' E'.
  destruct (le_lt_dec (String.length pre) (String.length pre'))
    as [Hle|Hlt]; [exact Hle|].
  specialize (Hleft pre' (lit' +:+ rest') E' Hlt).
  unfold Js.matches_here in Hleft.
  assert (existsb (fun l => String.prefix l (lit' +:+ rest')) lits = true)
    by (apply existsb_exists; exists lit'; split;
        [exact Hin' | apply prefix_append]).
  congruence.
Qed.

Lemma marked_put_before (marker d d' : string) :
  marked_before lits marker d d' -> put_before lits marker d d'.
Proof.
  intros [[Hno ->]|(pre & lit & rest & Hl & ->)].
  - left. split; [now apply no_match_absent | reflexivity].
  - right. exists pre, lit, rest. split; [now apply leftmost_match_of|].
    reflexivity.
Qed.

Lemma marked_put_behind (marker d d' : string) :
  marked_after lits marker d d' -> put_behind lits marker d d'.
Proof.
  intros [[Hno ->]|(pre & lit & rest & Hl & ->)].
  - left. split; [now apply no_match_absent | reflexivity].
  - right. exists pre, lit, rest. split; [now apply leftmost_match_of|].
    reflexivity.
Qed.

End Leftmost.

(** C9, as the claim words it, fails.  A chunk with two progress bars:
    the callback marks the first bar and its percent sign and leaves the
    second bar and the second percent sign without a marker, where the
    claim has a marker at each match. *)
Lemma flash_stderr_not_at_every_match :
  let green := ansi_green_dark sample_host in
  let clear := ansi_clear sample_host in
  let chunk := "Reading | # | 100% Writing | # | 100%" in
  flash_stderr sample_host chunk
  = green +:+ "Reading | # | 100%" +:+ clear +:+ " Writing | # | 100%" /\
  tagged_at_every_match sample_host chunk
  = green +:+ "Reading | # | 100%" +:+ clear +:+ " "
    +:+ green +:+ "Writing | # | 100%" +:+ clear /\
  flash_stderr sample_host chunk <> tagged_at_every_match sample_host chunk.
Proof.
  vm_compute. repeat split; try reflexivity. intros H. discriminate H.
Qed.

(** C9, amended.  For every chunk [buf] that avrdude writes to its error
    stream, the callback sends one text [out] to the sink, made from [buf]
    in four steps, each of which puts in at most one marker, at the
    leftmost occurrence of its pattern in the text as the steps before
    left it, and changes nothing when the pattern does not occur: the dark
    green marker in front of the leftmost ['Reading |'] or ['Writing |'];
    then the clear marker right behind the leftmost ['%']; then the clear
    marker in front of the leftmost ['avrdude done']; then the red marker
    in front of the leftmost ['can't open device'] or ['programmer is not
    responding'].  Occurrences further to the right get no marker, and the
    green and the clear marker are placed without regard to each other.
    [out] is [buf] with markers put in and nothing else changed: every
    character of [buf] is in [out], in order. *)
Theorem flash_stderr_marks_leftmost_matches
    (h : Host) (a : Arduino) (buf : string) :
  exists out d1 d2 d3,
    flash_handler h a (StderrData buf) = [Sendstd out] /\
    put_before ["Reading |"; "Writing |"] (ansi_green_dark h) buf d1 /\
    put_behind ["%"] (ansi_clear h) d1 d2 /\
    put_before ["avrdude done"] (ansi_clear h) d2 d3 /\
    put_before ["can't open device"; "programmer is not responding"]
               (ansi_red h) d3 out /\
    only_inserted [ansi_green_dark h; ansi_clear h; ansi_red h] buf out /\
    chars buf `sublist_of` chars out.
Proof.
  set (d1 := tag AVRDUDE_STDOUT_GREEN_START 0 (ansi_green_dark h) buf).
  set (d2 := tag AVRDUDE_STDOUT_GREEN_END 1 (ansi_clear h) d1).
  set (d3 := tag AVRDUDE_STDOUT_WHITE 0 (ansi_clear h) d2).
  assert (Hins : only_inserted [ansi_green_dark h; ansi_clear h; ansi_red h]
                   buf (flash_stderr h buf)).
  { unfold flash_stderr.
    repeat (apply tag_only_inserted; [simpl; tauto|]).
    apply only_inserted_none. }
  exists (flash_stderr h buf), d1, d2, d3.
  split; [reflexivity|].
  split; [apply marked_put_before, tag_before|].
  split; [apply marked_put_behind, tag_after_percent|].
  split; [apply marked_put_before, tag_before|].
  split; [apply marked_put_before, tag_before|].
  split; [exact Hins | exact (only_inserted_sublist _ _ _ Hins)].
Qed.

(** A chunk with text on both sides of the progress bar: the markers sit
    at the bar and at the percent sign, the text around them is as it
    was. *)
Example flash_stderr_sample :
  flash_stderr sample_host "avrdude: Writing | ## | 100% 0.10s"
  = "avrdude: " +:+ ansi_green_dark sample_host +:+ "Writing | ## | 100%"
    +:+ ansi_clear sample_host +:+ " 0.10s".
Proof. reflexivity. Qed.

(** ** Rediscovery *)

Section Rediscovery.

Variable h : Host.

Lemma resolving_snoc (target : string) (l : list Peripheral)
    (device : Peripheral) :
  resolving h target (l ++ [device]) =
  if String.eqb (device_name h device) target
  then resolving h target l ++ [device]
  else resolving h target l.
Proof.
  unfold resolving. rewrite filter_app, filter_cons, filter_nil.
  destruct (String.eqb_spec (device_name h device) target) as [E|E];
    case_decide; try contradiction; [reflexivity | apply app_nil_r].
Qed.

(** The loop leaves in the field the path of the last entry that
    resolves to the name, and what the field held before when no entry
    does. *)
Lemma leonardo_scan_path (a : Arduino) (l : list Peripheral) :
  _leonardoPath (leonardo_scan h a l) =
  match last (resolving h "Arduino Leonardo" l) with
  | Some device => Some (path device)
  | None => _leonardoPath a
  end.
Proof.
  induction l as [|device l IH] using rev_ind; [reflexivity|].
  unfold leonardo_scan in *. rewrite foldl_snoc, resolving_snoc.
  destruct (String.eqb (device_name h device) "Arduino Leonardo").
  - now rewrite last_snoc.
  - exact IH.
Qed.

Lemma makeymakey_scan_path (a : Arduino) (l : list Peripheral) :
  _makeymakeyPath (makeymakey_scan h a l) =
  match last (resolving h "Makey Makey" l) with
  | Some device => Some (path device)
  | None => _makeymakeyPath a
  end.
Proof.
  induction l as [|device l IH] using rev_ind; [reflexivity|].
  unfold makeymakey_scan in *. rewrite foldl_snoc, resolving_snoc.
  destruct (String.eqb (device_name h device) "Makey Makey").
  - now rewrite last_snoc.
  - exact IH.
Qed.

Lemma leonardo_scan_setup (a : Arduino) (l : list Peripheral) :
  same_setup a (leonardo_scan h a l) /\
  _makeymakeyPath (leonardo_scan h a l) = _makeymakeyPath a.
Proof.
  induction l as [|device l IH] using rev_ind;
    [unfold same_setup; simpl; tauto|].
  unfold leonardo_scan in *. rewrite foldl_snoc.
  destruct (String.eqb _ _); [|exact IH].
  unfold same_setup in *. simpl. tauto.
Qed.

Lemma makeymakey_scan_setup (a : Arduino) (l : list Peripheral) :
  same_setup a (makeymakey_scan h a l) /\
  _leonardoPath (makeymakey_scan h a l) = _leonardoPath a.
Proof.
  induction l as [|device l IH] using rev_ind;
    [unfold same_setup; simpl; tauto|].
  unfold makeymakey_scan in *. rewrite foldl_snoc.
  destruct (String.eqb _ _); [|exact IH].
  unfold same_setup in *. simpl. tauto.
Qed.

(** On an instance that has not found a Leonardo before, [leonardo]
    is the rediscovery of the specification: it throws when the list is
    [null] or no entry resolves to the name, and otherwise leaves the
    path of the last resolving entry. *)
Lemma leonardo_first_rediscovery (a : Arduino)
    (peripheral : option (list Peripheral)) :
  _leonardoPath a = None ->
  let run := leonardo h a (touch_ok peripheral) in
  match peripheral with
  | None => run.2 = Thrown (Error "cannot discover leonardo")
  | Some l =>
      match last (resolving h "Arduino Leonardo" l) with
      | None => run.2 = Thrown (Error "cannot discover leonardo")
      | Some device =>
          run.2 = Fulfilled /\ _leonardoPath run.1.2 = Some (path device)
      end
  end.
Proof.
  intros Hnone. unfold leonardo, touch_reset. simpl.
  destruct peripheral as [l|]; [|reflexivity].
  pose proof (leonardo_scan_path (set_baudRate a 1200) l) as Hp.
  simpl in Hp. rewrite Hnone in Hp.
  destruct (last (resolving h "Arduino Leonardo" l)) as [device|];
    destruct (_leonardoPath (leonardo_scan h (set_baudRate a 1200) l))
      eqn:E; try discriminate; simpl; rewrite ?E; auto.
Qed.

Lemma makeymakey_first_rediscovery (a : Arduino)
    (peripheral : option (list Peripheral)) :
  _makeymakeyPath a = None ->
  let run := makeymakey h a (touch_ok peripheral) in
  match peripheral with
  | None => run.2 = Thrown (Error "cannot discover makeymakey")
  | Some l =>
      match last (resolving h "Makey Makey" l) with
      | None => run.2 = Thrown (Error "cannot discover makeymakey")
      | Some device =>
          run.2 = Fulfilled /\ _makeymakeyPath run.1.2 = Some (path device)
      end
  end.
Proof.
  intros Hnone. unfold makeymakey, touch_reset. simpl.
  destruct peripheral as [l|]; [|reflexivity].
  pose proof (makeymakey_scan_path (set_baudRate a 1200) l) as Hp.
  simpl in Hp. rewrite Hnone in Hp.
  destruct (last (resolving h "Makey Makey" l)) as [device|];
    destruct (_makeymakeyPath (makeymakey_scan h (set_baudRate a 1200) l))
      eqn:E; try discriminate; simpl; rewrite ?E; auto.
Qed.

(** On an instance that holds a path from an earlier handshake, a list in
    which nothing resolves to the name does not make [leonardo] throw: the
    earlier path stays. *)
Lemma leonardo_later_rediscovery (a : Arduino) (p : string)
    (l : list Peripheral) :
  _leonardoPath a = Some p ->
  resolving h "Arduino Leonardo" l = [] ->
  let run := leonardo h a (touch_ok (Some l)) in
  run.2 = Fulfilled /\ _leonardoPath run.1.2 = Some p.
Proof.
  intros Hp Hl. unfold leonardo, touch_reset. simpl.
  pose proof (leonardo_scan_path (set_baudRate a 1200) l) as Hs.
  rewrite Hl in Hs. simpl in Hs. rewrite Hp in Hs.
  destruct (_leonardoPath (leonardo_scan h (set_baudRate a 1200) l)) eqn:E;
    [|discriminate].
  simpl. rewrite E. split; [reflexivity | exact Hs].
Qed.

End Rediscovery.

(** ** Traces *)

Section Traces.

Lemma settled_app (tr tr' : list event) :
  Forall (fun e => is_settling e = false) tr ->
  settled (tr ++ tr') = settled tr'.
Proof.
  induction 1 as [|e tr He _ IH]; [reflexivity|].
  destruct e; simpl in *; try discriminate; exact IH.
Qed.

Lemma settled_quiet (tr : list event) :
  Forall (fun e => is_settling e = false) tr -> settled tr = Pending.
Proof.
  intros H. rewrite <- (app_nil_r tr). now rewrite settled_app.
Qed.

Lemma build_chunks_quiet (h : Host) (a : Arduino) (code : string)
    (l : list procInput) :
  Forall (fun e => is_settling e = false)
         (flat_map (build_handler h a code)
                   (map FromBuilder (chunks_only l))).
Proof.
  induction l as [|[buf|buf|c] l IH]; simpl;
    repeat constructor; assumption.
Qed.

Lemma flash_chunks_quiet (h : Host) (a : Arduino) (l : list procInput) :
  Forall (fun e => is_settling e = false)
         (flat_map (flash_handler h a) (chunks_only l)).
Proof.
  induction l as [|[buf|buf|c] l IH]; simpl;
    repeat constructor; assumption.
Qed.

(** The handshake that opens [flash] goes through [handshake_sequence]
    from its start and stops somewhere in it, at the end when [connect]
    and [disconnect] are fulfilled. *)
Lemma touch_reset_trace scan field message (a : Arduino) (env : TouchEnv) :
  (touch_reset scan field message a env).1.1
    `prefix_of` handshake_sequence a /\
  (connect_result env = None -> disconnect_result env = None ->
   (touch_reset scan field message a env).1.1 = handshake_sequence a).
Proof.
  unfold touch_reset, handshake_sequence.
  destruct (connect_result env), (disconnect_result env),
    (list_result env) as [[l|]|]; simpl;
    try destruct (field _); simpl;
    (split; [|try discriminate; reflexivity]);
    first [ reflexivity | now eexists ].
Qed.

Lemma handshake_sequence_quiet (a : Arduino) (tr : list event) :
  tr `prefix_of` handshake_sequence a ->
  Forall (fun e => is_settling e = false) tr /\
  Forall (fun e => is_spawn e = false) tr.
Proof.
  intros [k E].
  assert (H : Forall (fun e => is_settling e = false /\ is_spawn e = false)
                     (handshake_sequence a))
    by (repeat constructor).
  rewrite E in H. apply Forall_app in H as [H _].
  split; eapply Forall_impl; try exact H; simpl; tauto.
Qed.

Lemma flash_handshake_trace (h : Host) (a : Arduino) (env : TouchEnv) :
  (flash_handshake h a env).1.1 `prefix_of` handshake_sequence a.
Proof.
  unfold flash_handshake, leonardo, makeymakey.
  repeat destruct (String.eqb _ _); try apply touch_reset_trace.
  apply prefix_nil.
Qed.

End Traces.

(** ** Outcomes of [build] *)

(** C2.  With the directories in place and the source written, whatever
    arduino-builder prints before it exits, [build] settles by the exit
    code: 0 resolves ['Success'], 1 to 4 reject with their messages.  Any
    other exit code calls neither [resolve] nor [reject]: the promise of
    [build] stays pending. *)
Theorem build_outcome_by_exit_code
    (h : Host) (a : Arduino) (ext : bool) (code locale : string)
    (before : list procInput) (outCode : Z) :
  settled (build h a (fs_ready ext) code
             (LocaleResolved locale None
              :: map FromBuilder (chunks_only before)
              ++ [FromBuilder (Exit outCode)])) =
  match outCode with
  | 0%Z => Resolved "Success"
  | 1%Z => Rejected (Error "Build failed")
  | 2%Z => Rejected (Error "Sketch not found")
  | 3%Z => Rejected (Error "Invalid (argument for) commandline optiond")
  | 4%Z => Rejected (Error "Preference passed to --get-pref does not exist")
  | _ => Pending
  end.
Proof.
  unfold build. simpl. rewrite flat_map_app, settled_app
    by apply build_chunks_quiet.
  simpl. destruct outCode as [|[[[]|[]|]|[[]|[]|]|]|]; reflexivity.
Qed.

(** C3.  A run of [build] is the executor followed by the callbacks.  The
    executor writes no file; when no [mkdirSync] throws, its last act is to
    spawn arduino-builder, and the source file is written by the callback
    of [osLocale], which runs after the executor has returned.  No process
    is spawned after the executor, so every write of the source file comes
    after the spawn. *)
Theorem build_spawns_before_it_writes
    (h : Host) (a : Arduino) (fs : BuildFs) (code : string)
    (inputs : list buildInput) :
  exists callbacks,
    build h a fs code inputs = build_sync h a fs ++ callbacks /\
    Forall (fun e => is_write e = false) (build_sync h a fs) /\
    Forall (fun e => is_spawn e = false) callbacks /\
    if build_started fs
    then last (build_sync h a fs)
         = Some (Spawn (_arduinoBuilderPath a)
                       (build_args h a (extensionsLibraries_exists fs))) /\
         callbacks = flat_map (build_handler h a code) inputs
    else callbacks = [].
Proof.
  eexists. split; [reflexivity|].
  split; [|split].
  - unfold build_sync.
    destruct (projectPath_exists fs), (mkdir_projectPath fs),
      (cache_exists fs), (mkdir_cache fs); repeat constructor.
  - destruct (build_started fs); [|constructor].
    induction inputs as [|[locale [err|]|[buf|buf|c]] inputs IH]; simpl;
      repeat constructor; try assumption.
    unfold build_on_exit.
    destruct c as [|[[[]|[]|]|[[]|[]|]|]|]; repeat constructor; assumption.
  - unfold build_started, build_sync.
    destruct (projectPath_exists fs), (mkdir_projectPath fs),
      (cache_exists fs), (mkdir_cache fs); simpl; auto.
Qed.

(** The run the claim is about, on an instance for an Uno: the spawn is the
    second event, the write of the source file the third. *)
Example build_trace_sample :
  build sample_host sample_uno (fs_ready false) "void setup(){}"
        [LocaleResolved "en-US" None; FromBuilder (Exit 0)]
  = [ OsLocale;
      Spawn "/tools/Arduino/arduino-builder"
            (build_base_args sample_host sample_uno);
      WriteFile "/data/arduino/project/arduino.ino" "void setup(){}";
      Sendstd (ansi_clear sample_host +:+ Js.crlf);
      Resolve "Success" ].
Proof. reflexivity. Qed.

(** ** Outcomes of [flash] *)

(** C6.  When the handshake is through (or the board needs none), whatever
    avrdude prints before it exits, [flash] settles by the exit code: 0
    resolves ['Success'], after a timer of 1000 ms on a touch-reset board
    and at once on any other; 1 rejects.  Any other exit code calls neither
    [resolve] nor [reject]: the promise of [flash] stays pending. *)
Theorem flash_outcome_by_exit_code
    (h : Host) (a : Arduino) (t : TouchEnv) (before : list procInput)
    (code : Z) (firmwarePath : option string) :
  let env := {| touch := t; avrdude := chunks_only before ++ [Exit code] |} in
  settled (flash h a env firmwarePath).1 =
    match (flash_handshake h a t).2 with
    | Fulfilled =>
        match code with
        | 0%Z => Resolved "Success"
        | 1%Z => Rejected (Error "avrdude failed to flash")
        | _ => Pending
        end
    | Thrown err => Rejected err
    | NeverSettles => Pending
    end /\
  flash_on_exit a 0 =
    if touch_reset_board a
    then [Wait 1000; Resolve "Success"]
    else [Resolve "Success"].
Proof.
  split.
  - unfold flash. simpl.
    pose proof (flash_handshake_trace h a t) as Hp.
    apply handshake_sequence_quiet in Hp as [Hq _].
    destruct (flash_handshake h a t) as [[tr a'] r]. simpl in *.
    destruct r; simpl.
    + rewrite settled_app by exact Hq. simpl.
      rewrite flat_map_app, settled_app by apply flash_chunks_quiet.
      simpl. rewrite app_nil_r. unfold flash_on_exit.
      destruct code as [|[[]|[]|]|]; try reflexivity.
      repeat destruct (String.eqb _ _); reflexivity.
    + now rewrite settled_app by exact Hq.
    + now apply settled_quiet.
  - unfold flash_on_exit, touch_reset_board.
    repeat destruct (String.eqb _ _); reflexivity.
Qed.

(** ** Two flashes on one instance *)

(** C1.  An instance for a Leonardo flashes twice.  During the first flash
    the list shows the board at a path [p]; during the second the list
    shows no Leonardo.  The second flash then hands avrdude the path of the
    first: ["COM5"] when the first found ["COM5"], ["COM7"] when it found
    ["COM7"].  The same second flash on a new instance is rejected with
    ['cannot discover leonardo']. *)
Theorem later_flash_reuses_earlier_path :
  let found p := {| touch := touch_ok (Some [leonardo_device p]);
                    avrdude := [Exit 0] |} in
  let gone := {| touch := touch_ok (Some [other_device "COM9"]);
                 avrdude := [Exit 0] |} in
  let later p :=
    (flash sample_host
           (flash sample_host sample_leonardo (found p) None).2 gone None).1 in
  resolved_target (later "COM5") = Some "-PCOM5" /\
  resolved_target (later "COM7") = Some "-PCOM7" /\
  settled (later "COM5") = Resolved "Success" /\
  settled (flash sample_host sample_leonardo gone None).1
    = Rejected (Error "cannot discover leonardo").
Proof. vm_compute. repeat split; reflexivity. Qed.

(** C4.  On an instance whose earlier handshake found the board at
    ["COM5"], [leonardo] is given a list in which no entry resolves to
    ['Arduino Leonardo'].  It does not throw: it is fulfilled and the field
    still holds ["COM5"]. *)
Theorem leonardo_rediscovery_keeps_earlier_path :
  let earlier :=
    flash sample_host sample_leonardo
          {| touch := touch_ok (Some [leonardo_device "COM5"]);
             avrdude := [Exit 0] |} None in
  let run := leonardo sample_host earlier.2
                      (touch_ok (Some [other_device "COM9"])) in
  resolving sample_host "Arduino Leonardo" [other_device "COM9"] = [] /\
  run.2 = Fulfilled /\
  _leonardoPath run.1.2 = Some "COM5".
Proof. vm_compute. repeat split; reflexivity. Qed.

(** ** The arguments of arduino-builder *)

(** C8, as the specification words it, fails: on the sample instance the
    extensions pair is not behind the base [-libraries] pair. *)
Lemma build_args_not_after_base :
  build_args sample_host sample_uno true
  <> build_args_after_base sample_host sample_uno.
Proof. vm_compute. intros H. discriminate H. Qed.

(** C8, amended.  When the extensions directory exists, [build] puts the
    pair ['-libraries', extensionsLibraries] at index 6 of the argument
    list: behind the first [-tools] pair, in front of the second [-tools]
    pair and of the base [-libraries] pair, so the extensions path comes
    before the base libraries path.  When the directory does not exist the
    list is the fixed base list.  arduino-builder is spawned with that
    list. *)
Theorem build_args_extensions_at_index_six
    (h : Host) (a : Arduino) (code : string) (inputs : list buildInput)
    (ext : bool) :
  build_args h a true =
    [ "-compile";
      "-logger=human";
      "-hardware"; path_join h (_arduinoPath a) "hardware";
      "-tools"; path_join h (_arduinoPath a) "tools-builder";
      "-libraries"; path_join h (_userDataPath a)
                              "../extensions/libraries/Arduino";
      "-tools"; path_join h (_arduinoPath a) "hardware/tools/avr";
      "-libraries"; path_join h (_arduinoPath a) "libraries";
      "-fqbn"; fqbn (_config a);
      "-build-path"; path_join h (_tempfilePath a) "build";
      "-build-cache"; path_join h (_tempfilePath a) "cache";
      "-warnings=none";
      "-verbose";
      _codefilePath a ] /\
  build_args h a false = build_base_args h a /\
  build h a (fs_ready ext) code inputs =
    OsLocale :: Spawn (_arduinoBuilderPath a) (build_args h a ext)
             :: flat_map (build_handler h a code) inputs.
Proof. repeat split; reflexivity. Qed.

(** ** The port argument of avrdude *)

Section Port.

Variable h : Host.

Lemma filter_spawn_app (tr rest : list event) :
  Forall (fun e => is_spawn e = false) tr ->
  List.filter is_spawn (tr ++ rest) = List.filter is_spawn rest.
Proof.
  induction 1 as [|e tr He _ IH]; [reflexivity|].
  simpl. now rewrite He.
Qed.

Lemma flash_callbacks_quiet (a : Arduino) (l : list procInput) :
  Forall (fun e => is_handshake_event e = false)
         (flat_map (flash_handler h a) l).
Proof.
  induction l as [|[buf|buf|c] l IH]; simpl;
    repeat constructor; try assumption.
  unfold flash_on_exit.
  destruct c as [|[[]|[]|]|]; repeat destruct (String.eqb _ _);
    repeat constructor; assumption.
Qed.

Lemma touch_reset_setup scan field message (a : Arduino) (env : TouchEnv) :
  (forall a l, same_setup a (scan a l)) ->
  same_setup a (touch_reset scan field message a env).1.2.
Proof.
  intros Hscan. unfold touch_reset.
  assert (H0 : same_setup a (set_baudRate a 1200))
    by (unfold same_setup; simpl; tauto).
  destruct (connect_result env), (disconnect_result env),
    (list_result env) as [[l|]|]; simpl; try exact H0.
  assert (H1 : same_setup a (scan (set_baudRate a 1200) l)).
  { specialize (Hscan (set_baudRate a 1200) l).
    unfold same_setup in *. simpl in *.
    destruct Hscan as (-> & -> & -> & ->). tauto. }
  destruct (field _); exact H1.
Qed.

Lemma flash_handshake_setup (a : Arduino) (env : TouchEnv) :
  same_setup a (flash_handshake h a env).1.2.
Proof.
  unfold flash_handshake, leonardo, makeymakey.
  repeat destruct (String.eqb _ _).
  - apply touch_reset_setup. intros. apply leonardo_scan_setup.
  - apply touch_reset_setup. intros. apply makeymakey_scan_setup.
  - unfold same_setup. simpl. tauto.
Qed.

(** The one programmer a run of [flash] spawns gets the port argument
    computed on the instance as the handshake left it. *)
Lemma flash_resolved_target (a : Arduino) (env : FlashEnv)
    (firmwarePath : option string) (port : string) :
  resolved_target (flash h a env firmwarePath).1 = Some port ->
  port = port_argument (flash h a env firmwarePath).2 /\
  (flash_handshake h a (touch env)).2 = Fulfilled.
Proof.
  unfold flash, resolved_target.
  pose proof (flash_handshake_trace h a (touch env)) as Hp.
  apply handshake_sequence_quiet in Hp as [_ Hq].
  destruct (flash_handshake h a (touch env)) as [[tr a'] r]. simpl in *.
  destruct r; simpl.
  - rewrite filter_spawn_app by exact Hq. simpl.
    intros [= <-]. split; reflexivity.
  - rewrite filter_spawn_app by exact Hq. simpl. discriminate.
  - rewrite <- (app_nil_r tr), filter_spawn_app by exact Hq.
    simpl. discriminate.
Qed.

Lemma truthy_Some (p : string) : p <> "" -> Js.truthy (Some p) = true.
Proof.
  intros Hp. simpl. now destruct (String.eqb_spec p "").
Qed.

End Port.

(** A board outside the touch-reset list never changes its instance. *)
Lemma after_other_board (h : Host) (a : Arduino) (c : call) :
  touch_reset_board a = false -> after h a c = a.
Proof.
  unfold touch_reset_board. intros H. apply orb_false_elim in H as [H1 H2].
  destruct c as [fs code inputs|env firmwarePath|env]; simpl;
    [reflexivity| |].
  - unfold flash, flash_handshake. now rewrite H1, H2.
  - unfold flashRealtimeFirmware.
    destruct (firmware h !! fqbn (_config a)); [|reflexivity].
    unfold flash, flash_handshake. now rewrite H1, H2.
Qed.

Lemma after_calls_other_board (h : Host) (a : Arduino) (cs : list call) :
  touch_reset_board a = false -> after_calls h a cs = a.
Proof.
  intros H. unfold after_calls.
  induction cs as [|c cs IH]; [reflexivity|].
  simpl. now rewrite after_other_board.
Qed.

(** C5.  An instance is made for a board whose [fqbn] is neither
    ['arduino:avr:leonardo'] nor ['SparkFun:avr:makeymakey'].  After any
    series of calls, a run of [flash] calls none of [connect], [disconnect]
    and [list], and hands avrdude the peripheral path the constructor was
    given. *)
Theorem flash_other_board_uses_supplied_path
    (h : Host) (peripheralPath : string) (config : BoardConfig)
    (userDataPath toolsPath : string) (peripheralParams : PeripheralParams)
    (calls : list call) (env : FlashEnv) (firmwarePath : option string) :
  fqbn config <> "arduino:avr:leonardo" ->
  fqbn config <> "SparkFun:avr:makeymakey" ->
  let a := after_calls h (constructor h peripheralPath config userDataPath
                                      toolsPath peripheralParams) calls in
  let tr := (flash h a env firmwarePath).1 in
  Forall (fun e => is_handshake_event e = false) tr /\
  resolved_target tr = Some ("-P" +:+ peripheralPath).
Proof.
  intros H1 H2.
  apply String.eqb_neq in H1, H2.
  assert (Hb : touch_reset_board
                 (constructor h peripheralPath config userDataPath toolsPath
                              peripheralParams) = false)
    by (unfold touch_reset_board; simpl; now rewrite H1, H2).
  rewrite (after_calls_other_board _ _ _ Hb).
  unfold flash, flash_handshake. simpl. rewrite H1, H2. simpl.
  split; [|reflexivity].
  constructor; [reflexivity | apply flash_callbacks_quiet].
Qed.

Lemma flash_other_board_uses_supplied_path_witness :
  let env := {| touch := touch_ok None;
                avrdude := [StderrData "Writing | ## | 100%"; Exit 0] |} in
  let a := after_calls sample_host sample_uno
             [CallBuild (fs_ready false) "" []; CallFlash env None] in
  Forall (fun e => is_handshake_event e = false)
         (flash sample_host a env None).1 /\
  resolved_target (flash sample_host a env None).1 = Some "-PCOM3".
Proof.
  apply (flash_other_board_uses_supplied_path
           sample_host "COM3" uno_config "/data" "/tools" sample_params);
    discriminate.
Defined.

(** C7.  On a touch-reset board the trace of [flash] opens with the
    handshake and has no call of [connect], [disconnect] or [list] after
    it.  The handshake goes through [handshake_sequence] in order, from
    its start: one [connect] with the baud rate set to 1200, a timer of
    100 ms, one [disconnect], a timer of 1000 ms, one [list].  It goes to
    the end when [connect] and [disconnect] are fulfilled, and stops at
    the call that is rejected otherwise. *)
Theorem flash_touch_reset_handshake
    (h : Host) (a : Arduino) (env : FlashEnv) (firmwarePath : option string) :
  touch_reset_board a = true ->
  exists hs rest,
    (flash h a env firmwarePath).1 = hs ++ rest /\
    hs `prefix_of` handshake_sequence a /\
    Forall (fun e => is_handshake_event e = false) rest /\
    (connect_result (touch env) = None ->
     disconnect_result (touch env) = None ->
     hs = [ Connect {| baudRate := 1200;
                       params_rest := params_rest (_peripheralParams a) |}
                    true;
            Wait 100; Disconnect; Wait 1000; ListPeripherals ]).
Proof.
  intros Hb.
  assert (Hfull : connect_result (touch env) = None ->
                  disconnect_result (touch env) = None ->
                  (flash_handshake h a (touch env)).1.1
                  = handshake_sequence a).
  { unfold flash_handshake, touch_reset_board, leonardo, makeymakey in *.
    destruct (String.eqb (fqbn (_config a)) "arduino:avr:leonardo");
      [apply touch_reset_trace|].
    destruct (String.eqb (fqbn (_config a)) "SparkFun:avr:makeymakey");
      [apply touch_reset_trace | discriminate]. }
  pose proof (flash_handshake_trace h a (touch env)) as Hp.
  unfold flash.
  destruct (flash_handshake h a (touch env)) as [[tr a'] r]. simpl in *.
  exists tr.
  destruct r; eexists; (split; [try reflexivity|split; [exact Hp|split]]);
    try exact Hfull.
  - constructor; [reflexivity | apply flash_callbacks_quiet].
  - repeat constructor.
  - symmetry. apply app_nil_r.
  - constructor.
Qed.

Lemma flash_touch_reset_handshake_witness :
  let env := {| touch := touch_ok (Some [leonardo_device "COM5"]);
                avrdude := [Exit 0] |} in
  touch_reset_board sample_leonardo = true /\
  connect_result (touch env) = None /\
  disconnect_result (touch env) = None /\
  exists rest,
    (flash sample_host sample_leonardo env None).1
    = [ Connect {| baudRate := 1200; params_rest := "" |} true;
        Wait 100; Disconnect; Wait 1000; ListPeripherals ] ++ rest /\
    Forall (fun e => is_handshake_event e = false) rest.
Proof.
  intros env. repeat (split; [reflexivity|]).
  destruct (flash_touch_reset_handshake sample_host sample_leonardo env None
              eq_refl) as (hs & rest & E & _ & Hrest & Hfull).
  exists rest. rewrite (Hfull eq_refl eq_refl) in E.
  split; [exact E | exact Hrest].
Defined.

(** C10, as the claim words it, fails.  The list shows a Leonardo whose
    path is the empty string; the handshake stores it, the field is not
    [null], and avrdude is given the peripheral path of the constructor. *)
Lemma port_argument_not_by_null :
  let a := (flash sample_host sample_leonardo
                  {| touch := touch_ok (Some [leonardo_device ""]);
                     avrdude := [] |} None).2 in
  _leonardoPath a = Some "" /\
  port_argument a = "-PCOM3" /\
  port_argument a <> port_argument_by_null a.
Proof. vm_compute. repeat split; try reflexivity. intros H. discriminate H. Qed.

(** C10, amended.  The port argument of the programmer that [flash] spawns
    is chosen on the two cached fields as the handshake left them, and on
    nothing of the board profile: the cached Leonardo path when it is a
    non-empty string; otherwise (the field is [null] or empty) the cached
    Makey Makey path when it is a non-empty string; otherwise the
    peripheral path the instance was made with.  The instance and its
    board are arbitrary: a non-empty cached Leonardo path is used on a
    Makey Makey and on a board outside the touch-reset list as well. *)
Theorem flash_port_by_truthy_cache
    (h : Host) (a : Arduino) (env : FlashEnv) (firmwarePath : option string)
    (port : string) :
  resolved_target (flash h a env firmwarePath).1 = Some port ->
  let a' := (flash h a env firmwarePath).2 in
  (forall p, _leonardoPath a' = Some p -> p <> "" -> port = "-P" +:+ p) /\
  (forall q, Js.truthy (_leonardoPath a') = false ->
             _makeymakeyPath a' = Some q -> q <> "" -> port = "-P" +:+ q) /\
  (Js.truthy (_leonardoPath a') = false ->
   Js.truthy (_makeymakeyPath a') = false ->
   port = "-P" +:+ _peripheralPath a).
Proof.
  intros Hport a'.
  destruct (flash_resolved_target h a env firmwarePath port Hport)
    as [-> _].
  fold a'.
  assert (Hpath : _peripheralPath a' = _peripheralPath a).
  { pose proof (flash_handshake_setup h a (touch env)) as Hs.
    unfold a', flash.
    destruct (flash_handshake h a (touch env)) as [[tr a1] r].
    destruct Hs as [Hs _]. destruct r; exact Hs. }
  unfold port_argument. repeat split.
  - intros p Hp Hne. rewrite Hp, (truthy_Some p Hne). reflexivity.
  - intros q Hl Hq Hne. rewrite Hl, Hq, (truthy_Some q Hne). reflexivity.
  - intros Hl Hm. rewrite Hl, Hm, Hpath. reflexivity.
Qed.

Lemma flash_port_by_truthy_cache_witness :
  let a := set_leonardoPath sample_uno (Some "COM6") in
  let env := {| touch := touch_ok None; avrdude := [Exit 0] |} in
  let a' := (flash sample_host a env None).2 in
  resolved_target (flash sample_host a env None).1 = Some "-PCOM6" /\
  _leonardoPath a' = Some "COM6" /\
  (forall p, _leonardoPath a' = Some p -> p <> "" -> "-PCOM6" = "-P" +:+ p) /\
  (forall q, Js.truthy (_leonardoPath a') = false ->
             _makeymakeyPath a' = Some q -> q <> "" ->
             "-PCOM6" = "-P" +:+ q) /\
  (Js.truthy (_leonardoPath a') = false ->
   Js.truthy (_makeymakeyPath a') = false ->
   "-PCOM6" = "-P" +:+ _peripheralPath a).
Proof.
  intros a env a'.
  split; [reflexivity|]. split; [reflexivity|].
  exact (flash_port_by_truthy_cache sample_host a env None "-PCOM6" eq_refl).
Defined.

(** * Further properties *)

(** ** [_insertStr] at the edges *)

Section InsertStrEdges.



End InsertStrEdges.


(** ** Phrases in a chunk *)

Section Phrases.

Variable re : Js.regex.

Lemma contains_matches (lit d : string) :
  In lit re -> contains lit d -> ~ no_match re d.
Proof.
  intros Hin (pre & post & ->) Hno.
  specialize (Hno pre (lit +:+ post) eq_refl).
  unfold Js.matches_here in Hno.
  assert (existsb (fun l => String.prefix l (lit +:+ post)) re = true)
    by (apply existsb_exists; exists lit; split;
        [exact Hin | apply prefix_append]).
  congruence.
Qed.

Lemma no_match_search (d : string) :
  no_match re d -> Js.search d re = (-1)%Z.
Proof.
  intros Hno. unfold Js.search.
  destruct (Js.search_from re d 0) as [k|] eqn:E; [|reflexivity].
  destruct (search_from_Some _ _ _ _ E) as (pre & post & -> & _ & Hm & _).
  rewrite (Hno pre post eq_refl) in Hm. discriminate.
Qed.

Lemma no_phrase_no_match (d : string) :
  (forall lit, In lit re -> ~ contains lit d) -> no_match re d.
Proof.
  intros H pre post ->.
  destruct (Js.matches_here re post) eqn:M; [|reflexivity].
  destruct (matches_here_split _ _ M) as (lit & rest & Hin & ->).
  destruct (H lit Hin). now exists pre, rest.
Qed.

Lemma search_miss_no_phrase (d lit : string) :
  Js.search d re = (-1)%Z -> In lit re -> ~ contains lit d.
Proof.
  intros Hs Hin Hc. exact (contains_matches _ _ Hin Hc (search_miss _ _ Hs)).
Qed.

Lemma search_hit_phrase (d : string) :
  Js.search d re <> (-1)%Z -> exists lit, In lit re /\ contains lit d.
Proof.
  intros Hs. destruct (search_hit _ _ Hs) as (pre & lit & rest & Hl & _).
  destruct Hl as (-> & Hin & _). exists lit. split; [exact Hin|].
  now exists pre, rest.
Qed.

End Phrases.

(** X2.  The stdout callback of [build] sends each chunk once, unchanged,
    behind one colour: dark green when the chunk has ['Sketch uses'] or
    ['Global variables'] anywhere in it, the clear code when it has
    neither. *)
Theorem build_stdout_green_on_summary (h : Host) (buf : string) :
  ((contains "Sketch uses" buf \/ contains "Global variables" buf) /\
   build_on_stdout h buf = [Sendstd (ansi_green_dark h +:+ buf)]) \/
  (~ contains "Sketch uses" buf /\ ~ contains "Global variables" buf /\
   build_on_stdout h buf = [Sendstd (ansi_clear h +:+ buf)]).
Proof.
  unfold build_on_stdout.
  destruct (Z.eqb_spec (Js.search buf ["Sketch uses"; "Global variables"])
                       (-1)) as [E|E].
  - right. repeat split; try reflexivity;
      apply (search_miss_no_phrase _ _ _ E); simpl; tauto.
  - left. split; [|reflexivity].
    destruct (search_hit_phrase _ _ E) as (lit & [<-|[<-|[]]] & Hc); tauto.
Qed.

(** X3.  A chunk of avrdude's error stream that has none of the six
    literals in it reaches the sink as it is. *)
Theorem flash_stderr_plain_chunk (h : Host) (buf : string) :
  (forall lit, In lit avrdude_patterns -> ~ contains lit buf) ->
  flash_stderr h buf = buf.
Proof.
  intros H.
  assert (Hre : forall re shift marker,
             (forall lit, In lit re -> In lit avrdude_patterns) ->
             tag re shift marker buf = buf).
  { intros re shift marker Hsub. unfold tag.
    rewrite (no_match_search re buf); [reflexivity|].
    apply no_phrase_no_match. intros lit Hin. apply H, Hsub, Hin. }
  unfold flash_stderr.
  rewrite (Hre AVRDUDE_STDOUT_GREEN_START),
          (Hre AVRDUDE_STDOUT_GREEN_END),
          (Hre AVRDUDE_STDOUT_WHITE),
          (Hre AVRDUDE_STDOUT_RED_START);
    try reflexivity; unfold avrdude_patterns; simpl; tauto.
Qed.

Lemma flash_stderr_plain_chunk_witness :
  (forall lit, In lit avrdude_patterns ->
               ~ contains lit "avrdude: Device signature = 0x1e9587") /\
  flash_stderr sample_host "avrdude: Device signature = 0x1e9587"
  = "avrdude: Device signature = 0x1e9587".
Proof.
  assert (H : forall lit, In lit avrdude_patterns ->
                ~ contains lit "avrdude: Device signature = 0x1e9587")
    by (intros lit; apply search_miss_no_phrase; reflexivity).
  split; [exact H|].
  exact (flash_stderr_plain_chunk sample_host _ H).
Defined.

(** ** Failures of [build] *)

(** X4.  When [mkdirSync] throws for the build directory or for the cache
    directory, [build] is rejected with that error; arduino-builder is
    not spawned, the source file is not written and nothing reaches the
    sink, whatever arrives afterwards. *)
Theorem build_mkdir_failure
    (h : Host) (a : Arduino) (fs : BuildFs) (code : string)
    (inputs : list buildInput) :
  build_started fs = false ->
  exists err,
    (projectPath_exists fs = false /\ mkdir_projectPath fs = Some err \/
     cache_exists fs = false /\ mkdir_cache fs = Some err) /\
    settled (build h a fs code inputs) = Rejected err /\
    Forall (fun e => is_spawn e = false /\ is_write e = false)
           (build h a fs code inputs) /\
    sent (build h a fs code inputs) = [].
Proof.
  unfold build, build_started, build_sync. intros H.
  destruct (projectPath_exists fs), (mkdir_projectPath fs) as [e1|],
    (cache_exists fs), (mkdir_cache fs) as [e2|];
    simpl in H; try discriminate H; simpl;
    first [ exists e1; split; [tauto|]; repeat constructor
          | exists e2; split; [tauto|]; repeat constructor ].
Qed.

Lemma build_mkdir_failure_witness :
  let fs := {| projectPath_exists := true; mkdir_projectPath := None;
               cache_exists := false;
               mkdir_cache := Some (SystemError "EACCES");
               extensionsLibraries_exists := false |} in
  let run := build sample_host sample_uno fs "void setup(){}"
                   [LocaleResolved "en-US" None; FromBuilder (Exit 0)] in
  build_started fs = false /\
  exists err,
    (projectPath_exists fs = false /\ mkdir_projectPath fs = Some err \/
     cache_exists fs = false /\ mkdir_cache fs = Some err) /\
    settled run = Rejected err /\
    Forall (fun e => is_spawn e = false /\ is_write e = false) run /\
    sent run = [].
Proof.
  intros fs run. split; [reflexivity|].
  exact (build_mkdir_failure sample_host sample_uno fs "void setup(){}"
           [LocaleResolved "en-US" None; FromBuilder (Exit 0)] eq_refl).
Defined.

(** X5.  [build] is settled by what comes first.  When the write of the
    source file throws before arduino-builder exits, [build] is rejected
    with that error whatever the exit code is afterwards.  When
    arduino-builder exits with 0 before the source file is written,
    [build] resolves ['Success'], also when the write then throws. *)
Theorem build_settled_by_first
    (h : Host) (a : Arduino) (ext : bool) (code locale : string)
    (err : jsError) (before : list procInput) (rest : list buildInput) :
  settled (build h a (fs_ready ext) code
             (map FromBuilder (chunks_only before)
              ++ LocaleResolved locale (Some err) :: rest))
  = Rejected err /\
  settled (build h a (fs_ready ext) code
             (map FromBuilder (chunks_only before)
              ++ FromBuilder (Exit 0) :: rest))
  = Resolved "Success".
Proof.
  unfold build. simpl.
  rewrite !flat_map_app, !settled_app by apply build_chunks_quiet.
  split; reflexivity.
Qed.

(** ** What [flash] sends to the sink *)

Section Sink.

Variable h : Host.

Lemma sent_app (tr tr' : list event) : sent (tr ++ tr') = sent tr ++ sent tr'.
Proof. apply omap_app. Qed.

Lemma sent_handshake (a : Arduino) (tr : list event) :
  tr `prefix_of` handshake_sequence a -> sent tr = [].
Proof.
  intros [k E].
  assert (H : sent (handshake_sequence a) = []) by reflexivity.
  rewrite E, sent_app in H. now apply app_eq_nil in H.
Qed.

Lemma sent_flash_callbacks (a : Arduino) (l : list procInput) :
  sent (flat_map (flash_handler h a) l) =
  flat_map (fun i => match i with
                     | StderrData buf => [flash_stderr h buf]
                     | StdoutData buf => [buf]
                     | Exit _ => []
                     end) l.
Proof.
  induction l as [|[buf|buf|c] l IH]; simpl; try (f_equal; exact IH).
  rewrite sent_app, IH.
  replace (sent (flash_on_exit a c)) with (@nil string); [reflexivity|].
  unfold flash_on_exit.
  destruct c as [|[[]|[]|]|]; repeat destruct (String.eqb _ _); reflexivity.
Qed.

End Sink.

(** X6.  [flash] sends nothing to the sink during the handshake, and
    nothing at all when the handshake fails or never settles.  Behind a
    handshake that went through it sends one text per chunk in the order
    of arrival, a chunk of the standard stream as it is and a chunk of the
    error stream tagged, and nothing when avrdude exits. *)
Theorem flash_sends_one_text_per_chunk
    (h : Host) (a : Arduino) (env : FlashEnv) (firmwarePath : option string) :
  sent (flash h a env firmwarePath).1 =
  match (flash_handshake h a (touch env)).2 with
  | Fulfilled =>
      flat_map (fun i => match i with
                         | StderrData buf => [flash_stderr h buf]
                         | StdoutData buf => [buf]
                         | Exit _ => []
                         end) (avrdude env)
  | _ => []
  end.
Proof.
  unfold flash.
  pose proof (sent_handshake a _ (flash_handshake_trace h a (touch env)))
    as Hs.
  destruct (flash_handshake h a (touch env)) as [[tr a'] r]. simpl in *.
  destruct r; simpl; rewrite ?sent_app, Hs; simpl; try reflexivity.
  apply sent_flash_callbacks.
Qed.

(** ** What an instance keeps *)

Section Layout.

Variable h : Host.

Lemma same_layout_refl (a : Arduino) : same_layout a a.
Proof. unfold same_layout. tauto. Qed.

Lemma same_layout_trans (a b c : Arduino) :
  same_layout a b -> same_layout b c -> same_layout a c.
Proof.
  unfold same_layout.
  intros (H1 & H2 & H3 & H4 & H5 & H6 & H7 & H8 & H9 & H10 & H11)
         (G1 & G2 & G3 & G4 & G5 & G6 & G7 & G8 & G9 & G10 & G11).
  repeat split; congruence.
Qed.

Lemma leonardo_scan_layout (a : Arduino) (l : list Peripheral) :
  same_layout a (leonardo_scan h a l) /\
  _peripheralParams (leonardo_scan h a l) = _peripheralParams a.
Proof.
  induction l as [|device l IH] using rev_ind;
    [split; [apply same_layout_refl | reflexivity]|].
  unfold leonardo_scan in *. rewrite foldl_snoc.
  destruct (String.eqb _ _); [|exact IH].
  unfold same_layout in *. simpl. exact IH.
Qed.

Lemma makeymakey_scan_layout (a : Arduino) (l : list Peripheral) :
  same_layout a (makeymakey_scan h a l) /\
  _peripheralParams (makeymakey_scan h a l) = _peripheralParams a.
Proof.
  induction l as [|device l IH] using rev_ind;
    [split; [apply same_layout_refl | reflexivity]|].
  unfold makeymakey_scan in *. rewrite foldl_snoc.
  destruct (String.eqb _ _); [|exact IH].
  unfold same_layout in *. simpl. exact IH.
Qed.

Lemma touch_reset_layout scan field message (a : Arduino) (env : TouchEnv) :
  (forall a l, same_layout a (scan a l) /\
               _peripheralParams (scan a l) = _peripheralParams a) ->
  same_layout a (touch_reset scan field message a env).1.2 /\
  _peripheralParams (touch_reset scan field message a env).1.2
  = {| baudRate := 1200; params_rest := params_rest (_peripheralParams a) |}.
Proof.
  intros Hscan. unfold touch_reset.
  assert (H0 : same_layout a (set_baudRate a 1200))
    by (unfold same_layout; simpl; tauto).
  destruct (connect_result env), (disconnect_result env),
    (list_result env) as [[l|]|]; simpl; try (split; [exact H0|reflexivity]).
  destruct (Hscan (set_baudRate a 1200) l) as [H1 H2].
  destruct (field _); simpl;
    (split; [exact (same_layout_trans _ _ _ H0 H1) | exact H2]).
Qed.

Lemma flash_handshake_layout (a : Arduino) (env : TouchEnv) :
  same_layout a (flash_handshake h a env).1.2 /\
  _peripheralParams (flash_handshake h a env).1.2
  = if touch_reset_board a
    then {| baudRate := 1200;
            params_rest := params_rest (_peripheralParams a) |}
    else _peripheralParams a.
Proof.
  unfold flash_handshake, touch_reset_board, leonardo, makeymakey.
  destruct (String.eqb (fqbn (_config a)) "arduino:avr:leonardo");
    [apply touch_reset_layout, leonardo_scan_layout|].
  destruct (String.eqb (fqbn (_config a)) "SparkFun:avr:makeymakey");
    [apply touch_reset_layout, makeymakey_scan_layout|].
  split; [apply same_layout_refl | reflexivity].
Qed.

(** The instance [flash] leaves is the one its handshake leaves. *)
Lemma flash_state (a : Arduino) (env : FlashEnv)
    (firmwarePath : option string) :
  (flash h a env firmwarePath).2 = (flash_handshake h a (touch env)).1.2.
Proof.
  unfold flash. destruct (flash_handshake h a (touch env)) as [[tr a'] r].
  now destruct r.
Qed.

Lemma after_layout (a : Arduino) (c : call) : same_layout a (after h a c).
Proof.
  destruct c as [fs code inputs|env firmwarePath|env]; simpl.
  - apply same_layout_refl.
  - rewrite flash_state. apply flash_handshake_layout.
  - unfold flashRealtimeFirmware.
    destruct (firmware h !! fqbn (_config a)); [|apply same_layout_refl].
    simpl. rewrite flash_state. apply flash_handshake_layout.
Qed.

Lemma after_calls_snoc (a : Arduino) (cs : list call) (c : call) :
  after_calls h a (cs ++ [c]) = after h (after_calls h a cs) c.
Proof. unfold after_calls. apply foldl_snoc. Qed.

Lemma after_calls_layout (a : Arduino) (cs : list call) :
  same_layout a (after_calls h a cs).
Proof.
  induction cs as [|c cs IH] using rev_ind; [apply same_layout_refl|].
  rewrite after_calls_snoc.
  exact (same_layout_trans _ _ _ IH (after_layout _ c)).
Qed.

(** The state of an instance after a call is the state after a handshake
    of [flash], or the state before. *)
Lemma after_cases (a : Arduino) (c : call) :
  after h a c = a \/ exists env, after h a c = (flash_handshake h a env).1.2.
Proof.
  destruct c as [fs code inputs|env firmwarePath|env]; simpl.
  - now left.
  - right. exists (touch env). apply flash_state.
  - unfold flashRealtimeFirmware.
    destruct (firmware h !! fqbn (_config a)); [|now left].
    right. exists (touch env). apply flash_state.
Qed.

Lemma touch_reset_field_kept scan field message
    (other : Arduino -> option string) (a : Arduino) (env : TouchEnv) :
  (forall a l, other (scan a l) = other a) ->
  (forall a b, other (set_baudRate a b) = other a) ->
  other (touch_reset scan field message a env).1.2 = other a.
Proof.
  intros Hscan Hbaud. unfold touch_reset.
  destruct (connect_result env), (disconnect_result env),
    (list_result env) as [[l|]|]; simpl; try apply Hbaud.
  destruct (field _); simpl; now rewrite Hscan, Hbaud.
Qed.

Lemma flash_handshake_leonardoPath (a : Arduino) (env : TouchEnv) :
  (fqbn (_config a) <> "arduino:avr:leonardo" ->
   _leonardoPath (flash_handshake h a env).1.2 = _leonardoPath a) /\
  (is_Some (_leonardoPath a) ->
   is_Some (_leonardoPath (flash_handshake h a env).1.2)).
Proof.
  unfold flash_handshake, leonardo, makeymakey.
  destruct (String.eqb_spec (fqbn (_config a)) "arduino:avr:leonardo")
    as [E|E].
  - split; [contradiction|]. intros Hs. unfold touch_reset.
    destruct (connect_result env), (disconnect_result env),
      (list_result env) as [[l|]|]; simpl; try exact Hs.
    assert (Hl : is_Some (_leonardoPath
                            (leonardo_scan h (set_baudRate a 1200) l))).
    { rewrite leonardo_scan_path.
      destruct (last _); [eexists; reflexivity | exact Hs]. }
    destruct (_leonardoPath (leonardo_scan h (set_baudRate a 1200) l))
      eqn:F; simpl; rewrite F; exact Hl.
  - destruct (String.eqb (fqbn (_config a)) "SparkFun:avr:makeymakey");
      simpl; [|tauto].
    rewrite (touch_reset_field_kept _ _ _ _leonardoPath);
      [tauto | intros; apply makeymakey_scan_setup | reflexivity].
Qed.

Lemma flash_handshake_makeymakeyPath (a : Arduino) (env : TouchEnv) :
  (fqbn (_config a) <> "SparkFun:avr:makeymakey" ->
   _makeymakeyPath (flash_handshake h a env).1.2 = _makeymakeyPath a) /\
  (is_Some (_makeymakeyPath a) ->
   is_Some (_makeymakeyPath (flash_handshake h a env).1.2)).
Proof.
  unfold flash_handshake, leonardo, makeymakey.
  destruct (String.eqb (fqbn (_config a)) "arduino:avr:leonardo").
  - rewrite (touch_reset_field_kept _ _ _ _makeymakeyPath);
      [tauto | intros; apply leonardo_scan_setup | reflexivity].
  - destruct (String.eqb_spec (fqbn (_config a)) "SparkFun:avr:makeymakey")
      as [E|E]; simpl; [|tauto].
    split; [contradiction|]. intros Hs. unfold touch_reset.
    destruct (connect_result env), (disconnect_result env),
      (list_result env) as [[l|]|]; simpl; try exact Hs.
    assert (Hl : is_Some (_makeymakeyPath
                            (makeymakey_scan h (set_baudRate a 1200) l))).
    { rewrite makeymakey_scan_path.
      destruct (last _); [eexists; reflexivity | exact Hs]. }
    destruct (_makeymakeyPath (makeymakey_scan h (set_baudRate a 1200) l))
      eqn:F; simpl; rewrite F; exact Hl.
Qed.

End Layout.

(** X7.  [flash] on a touch-reset board leaves the baud rate of the
    caller's peripheral parameters at 1200, whether the handshake went
    through, failed or never settled; nothing sets it back.  On any other
    board the parameters are as they were. *)
Theorem flash_leaves_baud_rate
    (h : Host) (a : Arduino) (env : FlashEnv) (firmwarePath : option string) :
  _peripheralParams (flash h a env firmwarePath).2 =
  if touch_reset_board a
  then {| baudRate := 1200;
          params_rest := params_rest (_peripheralParams a) |}
  else _peripheralParams a.
Proof. rewrite flash_state. apply flash_handshake_layout. Qed.

(** X8.  A cached path is never taken back: once [_leonardoPath] or
    [_makeymakeyPath] holds a path, it holds one after every further
    series of calls. *)
Theorem cached_path_is_never_reset
    (h : Host) (a : Arduino) (calls : list call) :
  (is_Some (_leonardoPath a) ->
   is_Some (_leonardoPath (after_calls h a calls))) /\
  (is_Some (_makeymakeyPath a) ->
   is_Some (_makeymakeyPath (after_calls h a calls))).
Proof.
  induction calls as [|c cs [IHl IHm]] using rev_ind; [simpl; tauto|].
  rewrite after_calls_snoc.
  destruct (after_cases h (after_calls h a cs) c) as [->|[env ->]];
    [tauto|].
  split; intros Hs.
  - now apply flash_handshake_leonardoPath, IHl.
  - now apply flash_handshake_makeymakeyPath, IHm.
Qed.

Lemma only_own_board_path_is_cached_aux
    (h : Host) (peripheralPath : string) (config : BoardConfig)
    (userDataPath toolsPath : string) (peripheralParams : PeripheralParams)
    (calls : list call) :
  let a := after_calls h (constructor h peripheralPath config userDataPath
                                      toolsPath peripheralParams) calls in
  (fqbn config <> "arduino:avr:leonardo" -> _leonardoPath a = None) /\
  (fqbn config <> "SparkFun:avr:makeymakey" -> _makeymakeyPath a = None).
Proof.
  simpl.
  set (a0 := constructor h peripheralPath config userDataPath toolsPath
                         peripheralParams).
  induction calls as [|c cs [IHl IHm]] using rev_ind; [simpl; tauto|].
  rewrite after_calls_snoc.
  assert (Hc : _config (after_calls h a0 cs) = config)
    by apply (after_calls_layout h a0 cs).
  destruct (after_cases h (after_calls h a0 cs) c) as [->|[env ->]];
    [tauto|].
  split; intros Hne.
  - rewrite (proj1 (flash_handshake_leonardoPath h _ env));
      [auto | now rewrite Hc].
  - rewrite (proj1 (flash_handshake_makeymakeyPath h _ env));
      [auto | now rewrite Hc].
Qed.

(** X9.  An instance caches a path only for its own board: made by the
    constructor for a board that is not a Leonardo it never holds a
    Leonardo path, and made for a board that is not a Makey Makey it never
    holds a Makey Makey path, after any series of calls. *)
Theorem only_own_board_path_is_cached
    (h : Host) (peripheralPath : string) (config : BoardConfig)
    (userDataPath toolsPath : string) (peripheralParams : PeripheralParams)
    (calls : list call) :
  let a := after_calls h (constructor h peripheralPath config userDataPath
                                      toolsPath peripheralParams) calls in
  (fqbn config <> "arduino:avr:leonardo" -> _leonardoPath a = None) /\
  (fqbn config <> "SparkFun:avr:makeymakey" -> _makeymakeyPath a = None).
Proof. apply only_own_board_path_is_cached_aux. Qed.

(** ** What avrdude is spawned with *)

Section Spawned.

Variable h : Host.

(** [flash] spawns avrdude when, and only when, its handshake went
    through; the arguments are computed on the instance the handshake
    left. *)
Lemma flash_spawned (a : Arduino) (env : FlashEnv)
    (firmwarePath : option string) :
  List.filter is_spawn (flash h a env firmwarePath).1 =
  match (flash_handshake h a (touch env)).2 with
  | Fulfilled =>
      [Spawn (_avrdudePath (flash h a env firmwarePath).2)
             (flash_args (flash h a env firmwarePath).2 firmwarePath)]
  | _ => []
  end.
Proof.
  unfold flash.
  pose proof (flash_handshake_trace h a (touch env)) as Hp.
  apply handshake_sequence_quiet in Hp as [_ Hq].
  destruct (flash_handshake h a (touch env)) as [[tr a'] r]. simpl in *.
  destruct r; simpl.
  - rewrite filter_spawn_app by exact Hq. simpl. f_equal.
    induction (avrdude env) as [|[buf|buf|c] l IH]; simpl; auto.
    rewrite filter_spawn_app; [exact IH|].
    unfold flash_on_exit.
    destruct c as [|[[]|[]|]|]; repeat destruct (String.eqb _ _);
      repeat constructor.
  - now rewrite filter_spawn_app by exact Hq.
  - rewrite <- (app_nil_r tr). now rewrite filter_spawn_app by exact Hq.
Qed.

Lemma touch_reset_found scan field message (a : Arduino) (env : TouchEnv)
    (l : list Peripheral) :
  connect_result env = None ->
  disconnect_result env = None ->
  list_result env = ListResolves (Some l) ->
  is_Some (field (scan (set_baudRate a 1200) l)) ->
  touch_reset scan field message a env
  = (handshake_sequence a, scan (set_baudRate a 1200) l, Fulfilled).
Proof.
  intros Hc Hd Hl [p Hp]. unfold touch_reset.
  rewrite Hc, Hd, Hl, Hp. reflexivity.
Qed.

Lemma touch_reset_not_found scan field message (a : Arduino)
    (env : TouchEnv) (peripheral : option (list Peripheral)) :
  connect_result env = None ->
  disconnect_result env = None ->
  list_result env = ListResolves peripheral ->
  match peripheral with
  | Some l => field (scan (set_baudRate a 1200) l) = None
  | None => True
  end ->
  (touch_reset scan field message a env).1.1 = handshake_sequence a /\
  (touch_reset scan field message a env).2 = Thrown (Error message).
Proof.
  intros Hc Hd Hl Hp. unfold touch_reset.
  rewrite Hc, Hd, Hl. destruct peripheral as [l|]; [|split; reflexivity].
  rewrite Hp. split; reflexivity.
Qed.

End Spawned.

Section FirmwareArgument.

Variable h : Host.

Lemma flash_firmware_argument (a : Arduino) (env : FlashEnv)
    (firmwarePath : option string) (arg : string) :
  firmware_argument (flash h a env firmwarePath).1 = Some arg ->
  arg = if Js.truthy firmwarePath
        then "-Uflash:w:" +:+ Js.interpolate firmwarePath +:+ ":i"
        else "-Uflash:w:" +:+ _hexPath a +:+ ":i".
Proof.
  unfold firmware_argument. rewrite flash_spawned.
  destruct (flash_handshake h a (touch env)).2; try discriminate.
  simpl. intros [= <-].
  destruct (Js.truthy firmwarePath); [reflexivity|].
  rewrite flash_state.
  now destruct (flash_handshake_layout h a (touch env))
    as [(_ & _ & _ & _ & _ & _ & _ & _ & _ & _ & ->) _].
Qed.

End FirmwareArgument.

(** X10.  What [flash] uploads by default is what [build] has
    arduino-builder make.  On an instance made by the constructor, after
    any series of calls, [build] passes [-build-path] followed by
    [<userData>/arduino/project/build], and [flash] without a firmware
    path (or with an empty one) passes avrdude the file [arduino.ino.hex]
    in that directory. *)
Theorem flash_uploads_from_build_path
    (h : Host) (peripheralPath : string) (config : BoardConfig)
    (userDataPath toolsPath : string) (peripheralParams : PeripheralParams)
    (calls : list call) (env : FlashEnv) (firmwarePath : option string)
    (ext : bool) (arg : string) :
  let a := after_calls h (constructor h peripheralPath config userDataPath
                                      toolsPath peripheralParams) calls in
  let buildPath :=
    path_join h (path_join h userDataPath "arduino/project") "build" in
  Js.truthy firmwarePath = false ->
  firmware_argument (flash h a env firmwarePath).1 = Some arg ->
  arg = "-Uflash:w:" +:+ path_join h buildPath "arduino.ino.hex" +:+ ":i" /\
  exists pre post,
    build_args h a ext = pre ++ "-build-path" :: buildPath :: post.
Proof.
  intros a buildPath Hfw Harg.
  destruct (after_calls_layout h
              (constructor h peripheralPath config userDataPath toolsPath
                           peripheralParams) calls)
    as (_ & _ & _ & Htemp & _ & _ & _ & _ & _ & _ & Hhex).
  fold a in Htemp, Hhex. simpl in Htemp, Hhex.
  split.
  - apply flash_firmware_argument in Harg.
    rewrite Hfw, Hhex in Harg. exact Harg.
  - unfold build_args, build_base_args, Js.splice_insert.
    rewrite Htemp. destruct ext; simpl.
    + eexists [_; _; _; _; _; _; _; _; _; _; _; _; _; _], _. reflexivity.
    + eexists [_; _; _; _; _; _; _; _; _; _; _; _], _. reflexivity.
Qed.

Lemma flash_uploads_from_build_path_witness :
  let env := {| touch := touch_ok None; avrdude := [Exit 0] |} in
  let a := after_calls sample_host sample_uno
             [CallBuild (fs_ready false) "" []; CallFlash env None] in
  let arg := "-Uflash:w:/data/arduino/project/build/arduino.ino.hex:i" in
  Js.truthy (Some "") = false /\
  firmware_argument (flash sample_host a env (Some "")).1 = Some arg /\
  arg = "-Uflash:w:" +:+ "/data/arduino/project/build/arduino.ino.hex"
        +:+ ":i" /\
  exists pre post,
    build_args sample_host a true
    = pre ++ "-build-path" :: "/data/arduino/project/build" :: post.
Proof.
  intros env a arg. split; [reflexivity|]. split; [reflexivity|].
  exact (flash_uploads_from_build_path
           sample_host "COM3" uno_config "/data" "/tools" sample_params
           [CallBuild (fs_ready false) "" []; CallFlash env None]
           env (Some "") true arg eq_refl eq_refl).
Defined.

(** X11.  [flash] with a firmware path that is not empty passes avrdude
    that file, and not the built one. *)
Theorem flash_explicit_firmware
    (h : Host) (a : Arduino) (env : FlashEnv) (firmwarePath arg : string) :
  firmwarePath <> "" ->
  firmware_argument (flash h a env (Some firmwarePath)).1 = Some arg ->
  arg = "-Uflash:w:" +:+ firmwarePath +:+ ":i".
Proof.
  intros Hne Harg. apply flash_firmware_argument in Harg.
  now rewrite (truthy_Some _ Hne) in Harg.
Qed.

Lemma flash_explicit_firmware_witness :
  let env := {| touch := touch_ok None; avrdude := [Exit 0] |} in
  let arg := "-Uflash:w:/tools/fw.hex:i" in
  "/tools/fw.hex" <> "" /\
  firmware_argument (flash sample_host sample_uno env (Some "/tools/fw.hex")).1
  = Some arg /\
  arg = "-Uflash:w:" +:+ "/tools/fw.hex" +:+ ":i".
Proof.
  intros env arg.
  assert (Hne : "/tools/fw.hex" <> "") by discriminate.
  split; [exact Hne|]. split; [reflexivity|].
  exact (flash_explicit_firmware sample_host sample_uno env
           "/tools/fw.hex" arg Hne eq_refl).
Defined.

(** X12.  [flashRealtimeFirmware] looks the board up in the firmware
    table.  For a board the table does not list it throws before any
    capability is called and nothing is spawned.  For a listed board it is
    [flash] with the file of the table under [../RealtimeFirmware/arduino]
    of the Arduino directory, and avrdude is passed that file (as long as
    the joined path is not empty), never the built one. *)
Theorem flashRealtimeFirmware_by_table
    (h : Host) (a : Arduino) (env : FlashEnv) :
  match firmware h !! fqbn (_config a) with
  | None => flashRealtimeFirmware h a env = None
  | Some file =>
      let firmwarePath :=
        path_join h (path_join h (_arduinoPath a)
                               "../RealtimeFirmware/arduino") file in
      flashRealtimeFirmware h a env
      = Some (flash h a env (Some firmwarePath)) /\
      (firmwarePath <> "" ->
       forall r arg,
         flashRealtimeFirmware h a env = Some r ->
         firmware_argument r.1 = Some arg ->
         arg = "-Uflash:w:" +:+ firmwarePath +:+ ":i")
  end.
Proof.
  unfold flashRealtimeFirmware.
  destruct (firmware h !! fqbn (_config a)) as [file|]; [|reflexivity].
  split; [reflexivity|].
  intros Hne r arg [= <-] Harg. apply flash_firmware_argument in Harg.
  now rewrite (truthy_Some _ Hne) in Harg.
Qed.

(** ** Handshakes that do not go through *)

(** X13.  On a touch-reset board, a [connect] that is rejected ends
    [flash] there: [flash] is rejected with the same error after the one
    call, without a [disconnect] or a [list].  A rejected [disconnect]
    ends it in the same way.  In both cases avrdude is not spawned. *)
Theorem flash_rejected_capability
    (h : Host) (a : Arduino) (env : FlashEnv) (firmwarePath : option string) :
  touch_reset_board a = true ->
  let params := {| baudRate := 1200;
                   params_rest := params_rest (_peripheralParams a) |} in
  (forall err, connect_result (touch env) = Some err ->
     (flash h a env firmwarePath).1 = [Connect params true; Reject err]) /\
  (forall err, connect_result (touch env) = None ->
     disconnect_result (touch env) = Some err ->
     (flash h a env firmwarePath).1
     = [Connect params true; Wait 100; Disconnect; Reject err]).
Proof.
  intros Hb params.
  unfold flash, flash_handshake, touch_reset_board, leonardo, makeymakey,
    touch_reset in *.
  split; intros err; [intros Hc | intros Hc Hd];
    destruct (String.eqb (fqbn (_config a)) "arduino:avr:leonardo");
    try destruct (String.eqb (fqbn (_config a)) "SparkFun:avr:makeymakey");
    try discriminate Hb; rewrite Hc, ?Hd; reflexivity.
Qed.

Lemma flash_rejected_capability_witness :
  let env := {| touch := {| connect_result := Some (Error "Access denied");
                            disconnect_result := None;
                            list_result := ListResolves None |};
                avrdude := [Exit 0] |} in
  touch_reset_board sample_leonardo = true /\
  connect_result (touch env) = Some (Error "Access denied") /\
  (flash sample_host sample_leonardo env None).1
  = [Connect {| baudRate := 1200; params_rest := "" |} true;
     Reject (Error "Access denied")].
Proof.
  intros env. split; [reflexivity|]. split; [reflexivity|].
  exact (proj1 (flash_rejected_capability sample_host sample_leonardo env
                  None eq_refl) _ eq_refl).
Defined.

(** X14.  On a touch-reset board, when the promise of [list] is rejected,
    [flash] never settles: the handshake has run to the [list] call, no
    callback is left to run, avrdude is not spawned and neither [resolve]
    nor [reject] is called. *)
Theorem flash_never_settles_when_list_rejects
    (h : Host) (a : Arduino) (env : FlashEnv) (firmwarePath : option string)
    (err : jsError) :
  touch_reset_board a = true ->
  connect_result (touch env) = None ->
  disconnect_result (touch env) = None ->
  list_result (touch env) = ListRejects err ->
  (flash h a env firmwarePath).1 = handshake_sequence a /\
  settled (flash h a env firmwarePath).1 = Pending.
Proof.
  intros Hb Hc Hd Hl.
  assert (E : (flash h a env firmwarePath).1 = handshake_sequence a).
  { unfold flash, flash_handshake, touch_reset_board, leonardo, makeymakey,
      touch_reset in *.
    destruct (String.eqb (fqbn (_config a)) "arduino:avr:leonardo");
      try destruct (String.eqb (fqbn (_config a)) "SparkFun:avr:makeymakey");
      try discriminate Hb; rewrite Hc, Hd, Hl; reflexivity. }
  split; [exact E|]. rewrite E. reflexivity.
Qed.

Lemma flash_never_settles_when_list_rejects_witness :
  let env := {| touch := {| connect_result := None;
                            disconnect_result := None;
                            list_result := ListRejects (Error "EIO") |};
                avrdude := [Exit 0] |} in
  touch_reset_board sample_makeymakey = true /\
  list_result (touch env) = ListRejects (Error "EIO") /\
  (flash sample_host sample_makeymakey env None).1
  = handshake_sequence sample_makeymakey /\
  settled (flash sample_host sample_makeymakey env None).1 = Pending.
Proof.
  intros env. split; [reflexivity|]. split; [reflexivity|].
  exact (flash_never_settles_when_list_rejects
           sample_host sample_makeymakey env None (Error "EIO")
           eq_refl eq_refl eq_refl eq_refl).
Defined.

(** X15.  On an instance for a Leonardo that holds no path yet, a [list]
    that resolves [null], or a list in which no entry resolves to
    ['Arduino Leonardo'], rejects [flash] with ['cannot discover
    leonardo'] right after the handshake; avrdude is not spawned. *)
Theorem flash_leonardo_not_found
    (h : Host) (a : Arduino) (env : FlashEnv) (firmwarePath : option string)
    (peripheral : option (list Peripheral)) :
  fqbn (_config a) = "arduino:avr:leonardo" ->
  _leonardoPath a = None ->
  connect_result (touch env) = None ->
  disconnect_result (touch env) = None ->
  list_result (touch env) = ListResolves peripheral ->
  match peripheral with
  | Some l => resolving h "Arduino Leonardo" l = []
  | None => True
  end ->
  (flash h a env firmwarePath).1
  = handshake_sequence a ++ [Reject (Error "cannot discover leonardo")].
Proof.
  intros Hf Hnone Hc Hd Hl Hp.
  assert (Hfield : match peripheral with
                   | Some l => _leonardoPath
                                 (leonardo_scan h (set_baudRate a 1200) l)
                               = None
                   | None => True
                   end).
  { destruct peripheral as [l|]; [|exact I].
    rewrite leonardo_scan_path, Hp. exact Hnone. }
  destruct (touch_reset_not_found (leonardo_scan h) _leonardoPath
              "cannot discover leonardo" a (touch env) peripheral
              Hc Hd Hl Hfield) as [Htr Hr].
  unfold flash, flash_handshake. rewrite Hf. simpl String.eqb. cbv iota.
  unfold leonardo.
  destruct (touch_reset _ _ _ a (touch env)) as [[tr a'] r].
  simpl in Htr, Hr. subst tr r. reflexivity.
Qed.

Lemma flash_leonardo_not_found_witness :
  let env := {| touch := touch_ok (Some [other_device "COM9"]);
                avrdude := [Exit 0] |} in
  fqbn (_config sample_leonardo) = "arduino:avr:leonardo" /\
  _leonardoPath sample_leonardo = None /\
  resolving sample_host "Arduino Leonardo" [other_device "COM9"] = [] /\
  (flash sample_host sample_leonardo env None).1
  = handshake_sequence sample_leonardo
    ++ [Reject (Error "cannot discover leonardo")].
Proof.
  intros env. repeat (split; [reflexivity|]).
  exact (flash_leonardo_not_found sample_host sample_leonardo env None
           (Some [other_device "COM9"])
           eq_refl eq_refl eq_refl eq_refl eq_refl eq_refl).
Defined.

(** ** Handshakes that find the board *)

(** X16.  On an instance for a Leonardo, whatever it holds from earlier
    calls: when the handshake goes through and the list has entries that
    resolve to ['Arduino Leonardo'], [flash] stores the path of the last
    of them and, that path not being empty, spawns avrdude on it. *)
Theorem flash_targets_last_leonardo
    (h : Host) (a : Arduino) (env : FlashEnv) (firmwarePath : option string)
    (l : list Peripheral) (device : Peripheral) :
  fqbn (_config a) = "arduino:avr:leonardo" ->
  connect_result (touch env) = None ->
  disconnect_result (touch env) = None ->
  list_result (touch env) = ListResolves (Some l) ->
  last (resolving h "Arduino Leonardo" l) = Some device ->
  path device <> "" ->
  _leonardoPath (flash h a env firmwarePath).2 = Some (path device) /\
  resolved_target (flash h a env firmwarePath).1
  = Some ("-P" +:+ path device).
Proof.
  intros Hf Hc Hd Hl Hlast Hne.
  assert (Hp : _leonardoPath (leonardo_scan h (set_baudRate a 1200) l)
               = Some (path device))
    by (now rewrite leonardo_scan_path, Hlast).
  assert (Hh : flash_handshake h a (touch env)
               = (handshake_sequence a,
                  leonardo_scan h (set_baudRate a 1200) l, Fulfilled)).
  { unfold flash_handshake. rewrite Hf. simpl String.eqb. cbv iota.
    apply touch_reset_found; auto; rewrite Hp; now eexists. }
  assert (Hs : (flash h a env firmwarePath).2
               = leonardo_scan h (set_baudRate a 1200) l)
    by (now rewrite flash_state, Hh).
  split; [now rewrite Hs|].
  unfold resolved_target. rewrite flash_spawned, Hh. simpl.
  rewrite Hs. unfold port_argument.
  now rewrite Hp, (truthy_Some _ Hne).
Qed.

Lemma flash_targets_last_leonardo_witness :
  let l := [leonardo_device "COM5"; other_device "COM9";
            leonardo_device "COM6"] in
  let env := {| touch := touch_ok (Some l); avrdude := [Exit 0] |} in
  let a := set_leonardoPath sample_leonardo (Some "COM2") in
  fqbn (_config a) = "arduino:avr:leonardo" /\
  last (resolving sample_host "Arduino Leonardo" l)
  = Some (leonardo_device "COM6") /\
  path (leonardo_device "COM6") <> "" /\
  _leonardoPath (flash sample_host a env None).2 = Some "COM6" /\
  resolved_target (flash sample_host a env None).1 = Some "-PCOM6".
Proof.
  intros l env a.
  assert (Hne : path (leonardo_device "COM6") <> "") by discriminate.
  split; [reflexivity|]. split; [reflexivity|]. split; [exact Hne|].
  exact (flash_targets_last_leonardo sample_host a env None l
           (leonardo_device "COM6")
           eq_refl eq_refl eq_refl eq_refl eq_refl Hne).
Defined.

(** X17.  On an instance made by the constructor for a Makey Makey, after
    any series of calls: when the handshake goes through and the list has
    entries that resolve to ['Makey Makey'], [flash] spawns avrdude on the
    path of the last of them, that path not being empty.  No Leonardo path
    can stand in its way on such an instance. *)
Theorem flash_targets_last_makeymakey
    (h : Host) (peripheralPath : string) (config : BoardConfig)
    (userDataPath toolsPath : string) (peripheralParams : PeripheralParams)
    (calls : list call) (env : FlashEnv) (firmwarePath : option string)
    (l : list Peripheral) (device : Peripheral) :
  let a := after_calls h (constructor h peripheralPath config userDataPath
                                      toolsPath peripheralParams) calls in
  fqbn config = "SparkFun:avr:makeymakey" ->
  connect_result (touch env) = None ->
  disconnect_result (touch env) = None ->
  list_result (touch env) = ListResolves (Some l) ->
  last (resolving h "Makey Makey" l) = Some device ->
  path device <> "" ->
  resolved_target (flash h a env firmwarePath).1
  = Some ("-P" +:+ path device).
Proof.
  intros a Hf Hc Hd Hl Hlast Hne.
  assert (Hcfg : fqbn (_config a) = "SparkFun:avr:makeymakey").
  { destruct (after_calls_layout h
                (constructor h peripheralPath config userDataPath toolsPath
                             peripheralParams) calls) as (_ & Hcfg & _).
    fold a in Hcfg. now rewrite Hcfg. }
  assert (Hleo : _leonardoPath a = None).
  { apply (only_own_board_path_is_cached_aux h peripheralPath config
             userDataPath toolsPath peripheralParams calls).
    now rewrite Hf. }
  assert (Hp : _makeymakeyPath (makeymakey_scan h (set_baudRate a 1200) l)
               = Some (path device))
    by (now rewrite makeymakey_scan_path, Hlast).
  assert (Hh : flash_handshake h a (touch env)
               = (handshake_sequence a,
                  makeymakey_scan h (set_baudRate a 1200) l, Fulfilled)).
  { unfold flash_handshake. rewrite Hcfg. simpl String.eqb. cbv iota.
    apply touch_reset_found; auto; rewrite Hp; now eexists. }
  assert (Hs : (flash h a env firmwarePath).2
               = makeymakey_scan h (set_baudRate a 1200) l)
    by (now rewrite flash_state, Hh).
  unfold resolved_target. rewrite flash_spawned, Hh. simpl.
  rewrite Hs. unfold port_argument.
  rewrite (proj2 (makeymakey_scan_setup h (set_baudRate a 1200) l)).
  simpl _leonardoPath. rewrite Hleo, Hp. simpl Js.truthy at 1. cbv iota.
  now rewrite (truthy_Some _ Hne).
Qed.

Lemma flash_targets_last_makeymakey_witness :
  let l := [makeymakey_device "COM7"; leonardo_device "COM5";
            makeymakey_device "COM8"] in
  let env := {| touch := touch_ok (Some l); avrdude := [Exit 0] |} in
  let earlier := {| touch := touch_ok (Some [makeymakey_device "COM7"]);
                    avrdude := [Exit 1] |} in
  let a := after_calls sample_host sample_makeymakey [CallFlash earlier None] in
  fqbn makeymakey_config = "SparkFun:avr:makeymakey" /\
  last (resolving sample_host "Makey Makey" l)
  = Some (makeymakey_device "COM8") /\
  path (makeymakey_device "COM8") <> "" /\
  resolved_target (flash sample_host a env None).1 = Some "-PCOM8".
Proof.
  intros l env earlier a.
  assert (Hne : path (makeymakey_device "COM8") <> "") by discriminate.
  split; [reflexivity|]. split; [reflexivity|]. split; [exact Hne|].
  exact (flash_targets_last_makeymakey
           sample_host "COM4" makeymakey_config "/data" "/tools"
           sample_params [CallFlash earlier None] env None l
           (makeymakey_device "COM8")
           eq_refl eq_refl eq_refl eq_refl eq_refl Hne).
Defined.

(** ** The device directory *)

Lemma substring_beyond (n : nat) (s : string) :
  String.length s <= n -> String.substring 0 n s = s.
Proof.
  revert n; induction s as [|c s IH]; intros [|n] H; simpl in *;
    try reflexivity; try lia.
  f_equal. apply IH. lia.
Qed.

(** X18.  The name of a listed device depends on the first 21 characters
    of its PnP identifier only (on the whole identifier when it is
    shorter).  It is the entry of the table under that key when there is
    one and it is not empty, and ['Unknown device'] otherwise; it is never
    the empty string. *)
Theorem device_name_by_prefix (h : Host) (device : Peripheral) :
  let key := Js.substring0 21 (pnpId device) in
  device_name h device <> "" /\
  (forall name, usbId h !! key = Some name -> name <> "" ->
                device_name h device = name) /\
  (usbId h !! key = None \/ usbId h !! key = Some "" ->
   device_name h device = "Unknown device") /\
  (forall prefix rest,
     String.length prefix = 21 -> pnpId device = prefix +:+ rest ->
     key = prefix) /\
  (String.length (pnpId device) <= 21 -> key = pnpId device).
Proof.
  intros key. unfold device_name. fold key.
  split; [|split; [|split; [|split]]].
  - destruct (usbId h !! key) as [name|]; simpl; [|discriminate].
    destruct (String.eqb_spec name ""); simpl; [discriminate | assumption].
  - intros name -> Hne. now rewrite (truthy_Some _ Hne).
  - intros [->| ->]; reflexivity.
  - intros prefix rest Hlen E. unfold key, Js.substring0.
    rewrite E, <- Hlen. apply substring_head.
  - intros Hlen. now apply substring_beyond.
Qed.

(** ** One process per call *)

Lemma build_callbacks_spawn_nothing (h : Host) (a : Arduino) (code : string)
    (inputs : list buildInput) :
  List.filter is_spawn (flat_map (build_handler h a code) inputs) = [].
Proof.
  induction inputs as [|[locale [err|]|[buf|buf|c]] inputs IH]; simpl; auto.
  rewrite filter_spawn_app; [exact IH|].
  destruct c as [|[[[]|[]|]|[[]|[]|]|]|]; repeat constructor.
Qed.

(** X19.  No call starts more than one process and none is started anew.
    [build] spawns arduino-builder once when both directories are there or
    could be made, and not at all otherwise; [flash] spawns avrdude once
    when its handshake went through (or the board needs none), and not at
    all otherwise.  What the process prints or exits with spawns
    nothing. *)
Theorem one_process_per_call
    (h : Host) (a : Arduino) (fs : BuildFs) (code : string)
    (inputs : list buildInput) (env : FlashEnv)
    (firmwarePath : option string) :
  List.filter is_spawn (build h a fs code inputs) =
    (if build_started fs
     then [Spawn (_arduinoBuilderPath a)
                 (build_args h a (extensionsLibraries_exists fs))]
     else []) /\
  List.filter is_spawn (flash h a env firmwarePath).1 =
    match (flash_handshake h a (touch env)).2 with
    | Fulfilled =>
        [Spawn (_avrdudePath (flash h a env firmwarePath).2)
               (flash_args (flash h a env firmwarePath).2 firmwarePath)]
    | _ => []
    end.
Proof.
  split; [|apply flash_spawned].
  unfold build, build_started, build_sync.
  destruct (projectPath_exists fs), (mkdir_projectPath fs),
    (cache_exists fs), (mkdir_cache fs); simpl;
    rewrite ?build_callbacks_spawn_nothing; reflexivity.
Qed.

(** ** A list without the board, on an instance that found it before *)

(** X20.  On an instance for a Leonardo that holds a non-empty path from
    an earlier handshake, a list in which no entry resolves to
    ['Arduino Leonardo'] does not reject [flash]: the handshake is
    fulfilled, the field keeps the earlier path and avrdude is spawned on
    it. *)
Theorem flash_reuses_cached_leonardo_path
    (h : Host) (a : Arduino) (env : FlashEnv) (firmwarePath : option string)
    (p : string) (l : list Peripheral) :
  fqbn (_config a) = "arduino:avr:leonardo" ->
  _leonardoPath a = Some p ->
  p <> "" ->
  connect_result (touch env) = None ->
  disconnect_result (touch env) = None ->
  list_result (touch env) = ListResolves (Some l) ->
  resolving h "Arduino Leonardo" l = [] ->
  _leonardoPath (flash h a env firmwarePath).2 = Some p /\
  resolved_target (flash h a env firmwarePath).1 = Some ("-P" +:+ p).
Proof.
  intros Hf Hcached Hne Hc Hd Hl Hnone.
  assert (Hp : _leonardoPath (leonardo_scan h (set_baudRate a 1200) l)
               = Some p)
    by (now rewrite leonardo_scan_path, Hnone).
  assert (Hh : flash_handshake h a (touch env)
               = (handshake_sequence a,
                  leonardo_scan h (set_baudRate a 1200) l, Fulfilled)).
  { unfold flash_handshake. rewrite Hf. simpl String.eqb. cbv iota.
    apply touch_reset_found; auto; rewrite Hp; now eexists. }
  assert (Hs : (flash h a env firmwarePath).2
               = leonardo_scan h (set_baudRate a 1200) l)
    by (now rewrite flash_state, Hh).
  split; [now rewrite Hs|].
  unfold resolved_target. rewrite flash_spawned, Hh. simpl.
  rewrite Hs. unfold port_argument.
  now rewrite Hp, (truthy_Some _ Hne).
Qed.

Lemma flash_reuses_cached_leonardo_path_witness :
  let found := {| touch := touch_ok (Some [leonardo_device "COM5"]);
                  avrdude := [Exit 0] |} in
  let gone := {| touch := touch_ok (Some [other_device "COM9"]);
                 avrdude := [Exit 0] |} in
  let a := after_calls sample_host sample_leonardo [CallFlash found None] in
  fqbn (_config a) = "arduino:avr:leonardo" /\
  _leonardoPath a = Some "COM5" /\
  "COM5" <> "" /\
  resolving sample_host "Arduino Leonardo" [other_device "COM9"] = [] /\
  _leonardoPath (flash sample_host a gone None).2 = Some "COM5" /\
  resolved_target (flash sample_host a gone None).1 = Some "-PCOM5".
Proof.
  intros found gone a.
  assert (Hne : "COM5" <> "") by discriminate.
  split; [reflexivity|]. split; [reflexivity|]. split; [exact Hne|].
  split; [reflexivity|].
  exact (flash_reuses_cached_leonardo_path sample_host a gone None "COM5"
           [other_device "COM9"]
           eq_refl eq_refl Hne eq_refl eq_refl eq_refl eq_refl).
Defined.
